(** * overload/autoai: the concurrency-ramp launcher

    A shallow embedding of the query launcher of package [autoai]
    ([Launcher.Run], [ExecStats.ToExecInfo], [executeAndMeasure]) and of the
    earlier revision of the same file ([StressQuery] and its
    [executeAndMeasure]), followed by the properties of the ramp controller,
    the single-worker measurer and the per-step aggregation.  The callers
    and neighbours of the launcher follow: the generator's [splitQueries],
    [SavePrevResult] and [DoIteration], and package [ingest]
    ([Config.Normalize], [humanizeBytes], [RunCopy]).

    Conventions.
    - [time.Duration] is an [int64] count of nanoseconds and [int] is 64 bits
      wide: both are [Z], and every addition and multiplication of the source
      is followed by [wrap64].  Go's [/] on integers truncates towards zero:
      [Z.quot].
    - The database and the clock are the environment.  What one call of
      [executeAndMeasure] observes is a [World]: the result of [pgx.Connect]
      and the results of the successive [conn.Exec] calls made before
      [ctx.Done()] is ready.
    - [go l.db.SaveQueryExecInfo(..)] and [multi.RunMany] are recorded, in
      program order, in the event list that [Run] returns next to its result. *)

From Stdlib Require Import ZArith List String Ascii Bool Lia.
From Stdlib Require Import Permutation.
Import ListNotations.
Open Scope Z_scope.

(** ** Machine integers *)

Definition wrap64 (z : Z) : Z := (z + 2 ^ 63) mod 2 ^ 64 - 2 ^ 63.

Definition int64_range (z : Z) : Prop := - 2 ^ 63 <= z < 2 ^ 63.

(** [time] constants, in nanoseconds. *)
Definition Millisecond : Z := 1000000.
Definition Second : Z := 1000 * Millisecond.
Definition Minute : Z := 60 * Second.
Definition Hour : Z := 60 * Minute.

(** ** Errors

    The [error] values the launcher can see: the two [context] sentinels, an
    error with a message of its own, and the [*fmt.wrapError] that
    [fmt.Errorf] builds for a [%w] verb (message and wrapped error). *)

Inductive error : Type :=
| DeadlineExceeded
| Canceled
| errorString (msg : string)
| wrapError (msg : string) (err : error).

(** [err.Error()] *)
Definition Error_ (e : error) : string :=
  match e with
  | DeadlineExceeded => "context deadline exceeded"
  | Canceled => "context canceled"
  | errorString msg => msg
  | wrapError msg _ => msg
  end.

(** Comparison of an error with one of the [context] sentinels. *)
Definition isSentinel (e target : error) : bool :=
  match e, target with
  | DeadlineExceeded, DeadlineExceeded => true
  | Canceled, Canceled => true
  | _, _ => false
  end.

(** [errors.Is(err, target)] for a sentinel [target]: walk the [Unwrap]
    chain.  Only [context.DeadlineExceeded] and [context.Canceled] are
    modelled as targets; any other target, which Go compares by identity,
    is outside the model. *)
Fixpoint errors_Is (e target : error) : bool :=
  isSentinel e target
  || match e with
     | wrapError _ inner => errors_Is inner target
     | _ => false
     end.

(** [fmt.Errorf("%w; %v", err, e)] *)
Definition Errorf_w_v (err e : error) : error :=
  wrapError (Error_ err ++ "; " ++ Error_ e)%string err.

(** ** The environment of one measurement *)

Inductive ExecResult : Type :=
| ExecOk (elapsed : Z)      (* [conn.Exec] returned nil after [elapsed] ns *)
| ExecErr (err : error).    (* [conn.Exec] returned [err] *)

Record World : Type := mkWorld {
  connect : option error;     (* the error of [pgx.Connect], if any *)
  execs : list ExecResult     (* the [conn.Exec] calls before [ctx.Done()] *)
}.

Record Query : Type := mkQuery { SQL : string }.

(** ** The launcher ([Launcher.Run] and its helpers) *)

Module Launch.

Record ExecStats : Type := mkExecStats {
  Min : Z;
  Avg : Z;
  Max : Z;
  Count : Z;
  Error : option error
}.

Record QueryExecInfo : Type := mkQueryExecInfo {
  Query_ : string;
  IsFailed : bool;
  Conns : Z;
  Comment : string;
  Info : ExecStats
}.

Definition isSome {A : Type} (o : option A) : bool :=
  match o with Some _ => true | None => false end.

(** [ExecStats.ToExecInfo] (pointer receiver).  The [QPS] field is a
    [float32] computed from [Avg] alone and read by nothing in the launcher;
    it is left out. *)
Definition ToExecInfo (s : ExecStats) (query : string) (conns : Z)
  : QueryExecInfo :=
  let failed := isSome (Error s) || (Count s =? 0) || (Avg s =? 0) in
  let comment :=
    match Error s with
    | Some e => ("error: " ++ Error_ e)%string
    | None =>
        if (Count s =? 0) || (Avg s =? 0) then "timeout"%string
        else "ok"%string
    end in
  {| Query_ := query; IsFailed := failed; Conns := conns;
     Comment := comment; Info := s |}.

Definition withError (s : ExecStats) (e : error) : ExecStats :=
  {| Min := Min s; Avg := Avg s; Max := Max s; Count := Count s;
     Error := Some e |}.

(** The statements after the loop: [Avg = sum / Count] when [Count > 0]. *)
Definition finish (stats : ExecStats) (sum : Z) : ExecStats :=
  if 0 <? Count stats then
    {| Min := Min stats; Avg := Z.quot sum (Count stats); Max := Max stats;
       Count := Count stats; Error := Error stats |}
  else stats.

(** The [loop:] of [executeAndMeasure].  The list is the sequence of
    [conn.Exec] results of the iterations that took the [default] branch;
    when it is used up, [<-ctx.Done()] is ready and the loop is left. *)
Fixpoint measureLoop (tr : list ExecResult) (stats : ExecStats) (sum : Z)
  : ExecStats :=
  match tr with
  | [] => finish stats sum
  | ExecErr err :: _ =>
      if errors_Is err DeadlineExceeded || errors_Is err Canceled
      then finish stats sum
      else withError stats err
  | ExecOk elapsed :: rest =>
      let stats' :=
        {| Min := Z.min (Min stats) elapsed;
           Avg := Avg stats;
           Max := Z.max (Max stats) elapsed;
           Count := wrap64 (Count stats + 1);
           Error := Error stats |} in
      measureLoop rest stats' (wrap64 (sum + elapsed))
  end.

Definition executeAndMeasure (w : World) : ExecStats :=
  match connect w with
  | Some err =>
      {| Min := 0; Avg := 0; Max := 0; Count := 0; Error := Some err |}
  | None =>
      measureLoop (execs w)
        {| Min := Hour; Avg := 0; Max := 0; Count := 0; Error := None |} 0
  end.

(** The body of the receive loop of a ramp step ([st := <-ch] and what
    follows).  The slice [sts] is appended to and never read; it is left
    out. *)
Definition receive (acc : list error * Z * Z) (st : ExecStats)
  : list error * Z * Z :=
  let '(errors, sum, count) := acc in
  let '(sum, count) :=
    if 0 <? Count st then (wrap64 (sum + Avg st), wrap64 (count + 1))
    else (sum, count) in
  let errors :=
    match Error st with
    | Some e => errors ++ [e]
    | None => errors
    end in
  (errors, sum, count).

(** "join all errors in a single error" *)
Definition joinErrors (errors : list error) : option error :=
  match errors with
  | [] => None
  | e0 :: rest => Some (fold_left Errorf_w_v rest e0)
  end.

(** One ramp step, from the values received on [ch] (in the order of their
    arrival) to the [ExecStats] stored in [stats]. *)
Definition aggregate (received : list ExecStats) : ExecStats :=
  let '(errors, sum, count) := fold_left receive received ([], 0, 0) in
  let sum :=
    if 0 <? count then Z.quot (Z.quot sum count) count else sum in
  {| Min := 0; Avg := sum; Max := 0; Count := count;
     Error := joinErrors errors |}.

(** What [Run] does to the outside, in program order. *)
Inductive event : Type :=
| RunMany (n : Z)                          (* [multi.RunMany(ctx, n, ..)] *)
| SaveQueryExecInfo (info : QueryExecInfo). (* [go l.db.SaveQueryExecInfo] *)

(** The environment of [Run]: the world of the first measurement, and for
    ramp iteration [iter] the world of the worker whose result is the [i]-th
    one received from the channel. *)
Record Env : Type := mkEnv {
  baseline : World;
  worker : nat -> nat -> World
}.

(** The values received in iteration [iter]: [multi.RunMany] runs the
    closure [n] times, each run sends one result, and the loop receives
    [n] of them. *)
Definition received (env : Env) (iter : nat) (n : Z) : list ExecStats :=
  map (fun i => executeAndMeasure (worker env iter i)) (seq 0 (Z.to_nat n)).

(** [for iter := 0; iter < 4; iter++]; [left] is [4 - iter]. *)
Fixpoint rampLoop (env : Env) (query : Query) (left iter : nat) (n : Z)
  (stats : ExecStats) (log : list event) : ExecStats * list event :=
  match left with
  | O => (stats, log)
  | S left' =>
      let n := wrap64 (n * 2) in
      let stats := aggregate (received env iter n) in
      rampLoop env query left' (S iter) n stats
        (log ++ [RunMany n;
                 SaveQueryExecInfo (ToExecInfo stats (SQL query) n)])
  end.

Definition Run (env : Env) (query : Query) : ExecStats * list event :=
  let stats := executeAndMeasure (baseline env) in
  let einfo := ToExecInfo stats (SQL query) 1 in
  let log := [SaveQueryExecInfo einfo] in
  if IsFailed (ToExecInfo stats "" 1) then (stats, log)
  else rampLoop env query 4 0 25 stats log.

End Launch.

(** ** The earlier revision of the file ([StressQuery]) *)

Module Stress.

Record ExecStats : Type := mkExecStats {
  Min : Z;
  Avg : Z;
  Max : Z;
  Count : Z
}.

Definition zeroStats : ExecStats :=
  {| Min := 0; Avg := 0; Max := 0; Count := 0 |}.

Definition finish (stats : ExecStats) (sum : Z) : ExecStats :=
  if 0 <? Count stats then
    {| Min := Min stats; Avg := Z.quot sum (Count stats); Max := Max stats;
       Count := Count stats |}
  else stats.

(** The loop of this revision's [executeAndMeasure]: an execution error
    that is neither a deadline nor a cancellation returns
    [ExecStats{}, err]. *)
Fixpoint measureLoop (tr : list ExecResult) (stats : ExecStats) (sum : Z)
  : ExecStats * option error :=
  match tr with
  | [] => (finish stats sum, None)
  | ExecErr err :: _ =>
      if errors_Is err DeadlineExceeded || errors_Is err Canceled
      then (finish stats sum, None)
      else (zeroStats, Some err)
  | ExecOk elapsed :: rest =>
      let stats' :=
        {| Min := Z.min (Min stats) elapsed;
           Avg := Avg stats;
           Max := Z.max (Max stats) elapsed;
           Count := wrap64 (Count stats + 1) |} in
      measureLoop rest stats' (wrap64 (sum + elapsed))
  end.

(** This revision measures on a connection it is given. *)
Definition executeAndMeasure (tr : list ExecResult)
  : ExecStats * option error :=
  measureLoop tr {| Min := Hour; Avg := 0; Max := 0; Count := 0 |} 0.

(** The receive loop of a step: [sum += st.Avg * Count; count += st.Count]. *)
Definition receive (acc : Z * Z) (st : ExecStats) : Z * Z :=
  let '(sum, count) := acc in
  (wrap64 (sum + wrap64 (Avg st * Count st)), wrap64 (count + Count st)).

Definition merged (received : list ExecStats) : Z * Z :=
  fold_left receive received (0, 0).

Record Env : Type := mkEnv {
  connect : option error;
  baseline : list ExecResult;
  worker : nat -> nat -> list ExecResult
}.

Definition received (env : Env) (iter : nat) (n : Z) : list ExecStats :=
  map (fun i => fst (executeAndMeasure (worker env iter i)))
      (seq 0 (Z.to_nat n)).

(** [for iter := 0; iter < 4; iter++] with its [break] on [count == 0]. *)
Fixpoint rampLoop (env : Env) (left iter : nat) (stats : ExecStats)
  : ExecStats :=
  match left with
  | O => stats
  | S left' =>
      let n := 50 in
      let '(sum, count) := merged (received env iter n) in
      if count =? 0 then stats
      else
        rampLoop env left' (S iter)
          {| Min := Min stats; Avg := Z.quot sum count; Max := Max stats;
             Count := count |}
  end.

(** [StressQuery] returns [(nil, err)] or [(&stats, nil)]. *)
Definition StressQuery (env : Env) : ExecStats + error :=
  match connect env with
  | Some err => inr err
  | None =>
      match executeAndMeasure (baseline env) with
      | (_, Some err) =>
          inr (wrapError ("failed initial run: " ++ Error_ err)%string err)
      | (stats, None) =>
          if (Count stats =? 0) || (Avg stats =? 0) then inl stats
          else inl (rampLoop env 4 0 stats)
      end
  end.

End Stress.

Import Launch.

(** ** Specification-side definitions *)

(** The count-weighted mean of the specification,
    [(Σ Avg_i * Count_i) / (Σ Count_i)], over exact integers. *)
Definition weightedSum (sts : list ExecStats) : Z :=
  fold_right (fun st acc => Avg st * Count st + acc) 0 sts.

Definition totalCount (sts : list ExecStats) : Z :=
  fold_right (fun st acc => Count st + acc) 0 sts.

Definition weightedMean (sts : list ExecStats) : Z :=
  Z.quot (weightedSum sts) (totalCount sts).

(** The data-model invariant of [ExecStats]. *)
Definition statsInvariant (s : ExecStats) : Prop :=
  (Count s = 0 -> Avg s = 0 /\ Max s = 0) /\
  (0 < Count s -> Min s <= Avg s <= Max s).

(** [sub] occurs in [msg]. *)
Definition Contains (msg sub : string) : Prop :=
  exists pre post, msg = (pre ++ sub ++ post)%string.

(** The worker counts of the ramp steps in an event list. *)
Fixpoint rampCounts (log : list event) : list Z :=
  match log with
  | [] => []
  | RunMany n :: rest => n :: rampCounts rest
  | SaveQueryExecInfo _ :: rest => rampCounts rest
  end.

(** The results handed to the history store in an event list. *)
Fixpoint reported (log : list event) : list QueryExecInfo :=
  match log with
  | [] => []
  | RunMany _ :: rest => reported rest
  | SaveQueryExecInfo info :: rest => info :: reported rest
  end.

(** Each element is larger than, and at least twice, the one before. *)
Fixpoint doubling (l : list Z) : Prop :=
  match l with
  | a :: ((b :: _) as rest) => a < b /\ 2 * a <= b /\ doubling rest
  | _ => True
  end.

(** The loop of [executeAndMeasure] leaves through [break]: the context is
    done, or [conn.Exec] fails with a deadline or a cancellation, before any
    other error. *)
Fixpoint stopsOnBudget (tr : list ExecResult) : bool :=
  match tr with
  | [] => true
  | ExecOk _ :: rest => stopsOnBudget rest
  | ExecErr err :: _ => errors_Is err DeadlineExceeded || errors_Is err Canceled
  end.

(** The executions completed before the loop is left. *)
Fixpoint completed (tr : list ExecResult) : list Z :=
  match tr with
  | ExecOk elapsed :: rest => elapsed :: completed rest
  | _ => []
  end.

(** A worker whose [k] executions all take [d] nanoseconds. *)
Definition steady (k : nat) (d : Z) : World :=
  {| connect := None; execs := repeat (ExecOk d) k |}.

(** The environment in which the first measurement completes ten executions
    of 100ms and every ramp worker completes [k] executions of [d] ns. *)
Definition steadyEnv (k : nat) (d : Z) : Env :=
  {| baseline := steady 10 (100 * Millisecond);
     worker := fun _ _ => steady k d |}.

(** An environment whose first ramp step times out in every worker and
    whose second ramp step has one failing worker. *)
Definition roughEnv : Env :=
  {| baseline := steady 10 (100 * Millisecond);
     worker := fun iter i =>
       match iter, i with
       | O, _ => {| connect := None; execs := [ExecErr DeadlineExceeded] |}
       | S O, O => {| connect := None;
                      execs := [ExecErr (errorString "syntax error")] |}
       | _, _ => steady 5 (90 * Millisecond)
       end |}.

(** The workers of a step that carry data, the errors of a step, and the
    exact sum of a list of durations. *)
Definition active (sts : list ExecStats) : list ExecStats :=
  filter (fun st => 0 <? Count st) sts.

Definition errorsOf (sts : list ExecStats) : list error :=
  flat_map (fun st => match Error st with Some e => [e] | None => [] end) sts.

Definition total (l : list Z) : Z := fold_right Z.add 0 l.

(** ** A function that may panic, or run out of the fuel of its model *)

Inductive outcome (A : Type) : Type :=
| Returns (a : A)
| Panics
| OutOfFuel.

Arguments Returns {A} a.
Arguments Panics {A}.
Arguments OutOfFuel {A}.

(** The string of one line feed. *)
Definition LF : string := String (ascii_of_nat 10) EmptyString.

(** ** Package [ingest] *)

Module Ingest.

Record Config : Type := mkConfig {
  TableName : string;
  BatchSize : Z
}.

Definition defaultTableName : string := "data42".
Definition defaultBatchSize : Z := 1000000.

(** [(conf *Config).Normalize()] *)
Definition Normalize (conf : Config) : Config :=
  let conf :=
    if (TableName conf =? "")%string
    then {| TableName := defaultTableName; BatchSize := BatchSize conf |}
    else conf in
  if BatchSize conf =? 0
  then {| TableName := TableName conf; BatchSize := defaultBatchSize |}
  else conf.

(** What [humanizeBytes] returns: the literal "0 B", or the arguments of
    [fmt.Sprintf("%.1f %cB", float64(b)/float64(div), suffix)].  The
    floating-point division and its formatting are not modelled. *)
Inductive humanized : Type :=
| ZeroB
| Scaled (b div : Z) (suffix : ascii).

Definition unit : Z := 1024.

(** [for n := b / unit; n >= unit; n /= unit { div *= unit; exp++ }] *)
Fixpoint scaleLoop (fuel : nat) (n div exp : Z) : option (Z * Z) :=
  if n >=? unit then
    match fuel with
    | O => None
    | S fuel' =>
        scaleLoop fuel' (Z.quot n unit) (wrap64 (div * unit))
          (wrap64 (exp + 1))
    end
  else Some (div, exp).

(** ["KMGTPE"[exp]], which panics when [exp] is out of range. *)
Definition suffixAt (exp : Z) : option ascii :=
  if (0 <=? exp) && (exp <? 6) then String.get (Z.to_nat exp) "KMGTPE"
  else None.

Definition humanizeBytes (fuel : nat) (b : Z) : outcome humanized :=
  if b <? unit then Returns ZeroB
  else
    match scaleLoop fuel (Z.quot b unit) unit 0 with
    | None => OutOfFuel
    | Some (div, exp) =>
        match suffixAt exp with
        | Some c => Returns (Scaled b div c)
        | None => Panics
        end
    end.

(** The environment of [RunCopy]: the results of [pgx.Connect], of
    [createTable] and of the successive [conn.CopyFrom] calls made before
    [ctx.Done()] is ready. *)
Inductive CopyResult : Type :=
| CopyOk (n : Z)
| CopyErr (err : error).

Record CopyWorld : Type := mkCopyWorld {
  connectErr : option error;
  createErr : option error;
  copies : list CopyResult
}.

Section Copy.

(** The largest length that [make([][]interface{}, n)] accepts: the
    runtime's allocation limit over the size of one element, a constant of
    the Go runtime and of the platform. *)
Variable maxLen : Z.

(** The [copy:] loop of [RunCopy].  [make([][]interface{}, batchSize)]
    panics when the length is negative or above [maxLen].  Running out of
    memory below that limit ends the process and is not modelled.  The
    progress report only logs; the loop returns the error and the final
    [rowsInserted]. *)
Fixpoint copyLoop (batchSize : Z) (tr : list CopyResult) (rowsInserted : Z)
  : outcome (option error * Z) :=
  match tr with
  | [] => Returns (None, rowsInserted)
  | r :: rest =>
      if (batchSize <? 0) || (maxLen <? batchSize) then Panics
      else
        match r with
        | CopyErr err =>
            Returns
              (Some (wrapError ("failed to copy data: " ++ Error_ err)%string
                       err),
               rowsInserted)
        | CopyOk n => copyLoop batchSize rest (wrap64 (rowsInserted + n))
        end
  end.

Definition RunCopy (w : CopyWorld) (conf : Config)
  : outcome (option error * Z) :=
  let conf := Normalize conf in
  match connectErr w with
  | Some err => Returns (Some err, 0)
  | None =>
      match createErr w with
      | Some err =>
          Returns
            (Some (wrapError ("failed to create table: " ++ Error_ err)%string
                     err),
             0)
      | None => copyLoop (BatchSize conf) (copies w) 0
      end
  end.

End Copy.

End Ingest.

(** ** The generator ([splitQueries], [SavePrevResult], [DoIteration]) *)

Module Gen.

Definition isTick (c : ascii) : bool := Ascii.eqb c "`".

(** Put a byte in front of the first part. *)
Definition consHead (c : ascii) (parts : list string) : list string :=
  match parts with
  | p :: ps => String c p :: ps
  | [] => [String c EmptyString]
  end.

(** [strings.Split(s, "```")]: cut at the occurrences of the separator,
    found from left to right and not overlapping. *)
Fixpoint SplitFence (s : string) : list string :=
  match s with
  | EmptyString => [EmptyString]
  | String a tl =>
      match tl with
      | String b (String c rest) =>
          if isTick a && isTick b && isTick c
          then EmptyString :: SplitFence rest
          else consHead a (SplitFence tl)
      | _ => consHead a (SplitFence tl)
      end
  end.

(** [part[n:]] for [n] within the length of [part]. *)
Fixpoint skip (n : nat) (s : string) : string :=
  match n, s with
  | O, _ => s
  | S n', String _ tl => skip n' tl
  | S _, EmptyString => EmptyString
  end.

Definition sqlTag : string := ("sql" ++ LF)%string.

Section SplitQueries.

(** [strings.TrimSpace], of the standard library. *)
Variable TrimSpace : string -> string.

(** The loop over the parts. *)
Definition collect (parts : list string) : list Query :=
  fold_left
    (fun result part =>
       if String.prefix sqlTag part
       then result ++ [ {| SQL := TrimSpace (skip 4 part) |} ]
       else result)
    parts [].

Definition splitQueries (markdown : string) : list Query + error :=
  let queries := SplitFence markdown in
  if (List.length queries <? 2)%nat
  then inr (errorString "invalid markdown format")
  else inl (collect queries).

End SplitQueries.

Definition prevHeader : string :=
  (LF ++ LF ++
   "You previously generated some queries that were executed with the following results:")%string.

(** [SavePrevResult]: the new value of [g.prevPrompt]. *)
Definition SavePrevResult (prevPrompt success failed : string) : string :=
  if negb (success =? "")%string || negb (failed =? "")%string
  then (prevHeader ++ failed ++ success ++ LF)%string
  else prevPrompt.

Definition fenced (q : Query) : string :=
  (LF ++ "```sql" ++ LF ++ SQL q ++ LF ++ "```")%string.

Definition msgError (q : Query) : string :=
  (LF ++ LF ++ "This query failed to execute with an error:"
   ++ fenced q)%string.

Definition msgTimeout (q : Query) : string :=
  (LF ++ LF ++ "This query never finished, most likely timed out:"
   ++ fenced q)%string.

Definition msgGood (qps : string) (q : Query) : string :=
  (LF ++ LF ++ "This was a good query that was running at a rate "
   ++ qps ++ " QPS:" ++ fenced q)%string.

Section DoIteration.

(** The [%v] formatting of [float32(z)], of the standard library. *)
Variable fmtFloat32 : Z -> string.

(** The part of a worker goroutine run under [resMutex].  [err] is the
    variable of the enclosing function, assigned by [g.Generate]. *)
Definition classify (err : option error) (acc : string * string)
  (r : Query * ExecStats) : string * string :=
  let '(failedQueries, successQueries) := acc in
  let '(q, stats) := r in
  match err with
  | Some _ => ((failedQueries ++ msgError q)%string, successQueries)
  | None =>
      if Count stats =? 0
      then ((failedQueries ++ msgTimeout q)%string, successQueries)
      else if negb (Avg stats =? 0)
      then (failedQueries,
            (successQueries
             ++ msgGood (fmtFloat32 (Z.quot Second (Avg stats))) q)%string)
      else acc
  end.

(** The environment of [DoIteration]: the result of [pgx.Connect], the
    result of [g.Generate] (queries, or an error with no queries), the order
    in which the worker goroutines take [resMutex], and the environment of
    each query's [Run]. *)
Record IterWorld : Type := mkIterWorld {
  dbConnect : option error;
  generated : list Query + error;
  finished : list Query -> list Query;
  launch : Query -> Env
}.

Record IterResult : Type := mkIterResult {
  returned : option error;
  prevPrompt' : string;
  failedQueries : string;
  successQueries : string
}.

Definition DoIteration (prevPrompt : string) (w : IterWorld) : IterResult :=
  match dbConnect w with
  | Some err =>
      {| returned :=
           Some (errorString
                   ("failed to connect to database: " ++ Error_ err)%string);
         prevPrompt' := prevPrompt;
         failedQueries := ""; successQueries := "" |}
  | None =>
      let '(queries, err) :=
        match generated w with
        | inl qs => (qs, None)
        | inr e => ([], Some e)
        end in
      let '(failedQueries, successQueries) :=
        fold_left (classify err)
          (map (fun q => (q, fst (Run (launch w q) q))) (finished w queries))
          (EmptyString, EmptyString) in
      {| returned := None;
         prevPrompt' := SavePrevResult prevPrompt failedQueries successQueries;
         failedQueries := failedQueries;
         successQueries := successQueries |}
  end.

End DoIteration.

End Gen.

(** ** Specification-side definitions for the generator *)

(** No backtick occurs in [s]. *)
Fixpoint tickFree (s : string) : bool :=
  match s with
  | EmptyString => true
  | String c tl => negb (Gen.isTick c) && tickFree tl
  end.

(** A markdown answer: blocks of text followed by a fenced code block
    tagged [sql], and a closing text. *)
Fixpoint renderBlocks (blocks : list (string * string)) (post : string)
  : string :=
  match blocks with
  | [] => post
  | (pre, body) :: rest =>
      (pre ++ "```sql" ++ LF ++ body ++ "```" ++ renderBlocks rest post)%string
  end.

Definition plainText (s : string) : Prop :=
  tickFree s = true /\ String.prefix Gen.sqlTag s = false.

(** * Properties *)

(** ** Machine integers *)

Lemma wrap64_id (z : Z) : int64_range z -> wrap64 z = z.
Proof.
  unfold int64_range, wrap64. intros Hz.
  rewrite Z.mod_small; lia.
Qed.

Lemma wrap64_add_l (a b : Z) : wrap64 (wrap64 a + b) = wrap64 (a + b).
Proof.
  unfold wrap64.
  replace ((a + 2 ^ 63) mod 2 ^ 64 - 2 ^ 63 + b + 2 ^ 63)
    with ((a + 2 ^ 63) mod 2 ^ 64 + b) by ring.
  rewrite Z.add_mod_idemp_l by lia.
  f_equal. f_equal. ring.
Qed.

Lemma wrap64_0 : wrap64 0 = 0.
Proof. reflexivity. Qed.

(** ** Strings *)

Lemma append_assoc (a b c : string) :
  ((a ++ b) ++ c = a ++ (b ++ c))%string.
Proof.
  induction a as [|ch a IH]; simpl; [reflexivity | now rewrite IH].
Qed.

Lemma append_nil_r (a : string) : (a ++ "" = a)%string.
Proof.
  induction a as [|ch a IH]; simpl; [reflexivity | now rewrite IH].
Qed.

Lemma Contains_refl (s : string) : Contains s s.
Proof.
  exists ""%string, ""%string. simpl. now rewrite append_nil_r.
Qed.

Lemma Contains_app_l (s sub t : string) :
  Contains s sub -> Contains (s ++ t) sub.
Proof.
  intros (pre & post & ->). exists pre, (post ++ t)%string.
  now rewrite !append_assoc.
Qed.

Lemma Contains_app_r (s sub t : string) :
  Contains s sub -> Contains (t ++ s) sub.
Proof.
  intros (pre & post & ->). exists (t ++ pre)%string, post.
  now rewrite !append_assoc.
Qed.

(** ** Joining errors *)

Lemma Error_Errorf_w_v (err e : error) :
  Error_ (Errorf_w_v err e) = (Error_ err ++ "; " ++ Error_ e)%string.
Proof. reflexivity. Qed.

(** Joining keeps the message accumulated so far and adds the message of
    every further error. *)
Lemma fold_Errorf_contains (rest : list error) :
  forall (acc e : error),
    Contains (Error_ acc) (Error_ e) \/ In e rest ->
    Contains (Error_ (fold_left Errorf_w_v rest acc)) (Error_ e).
Proof.
  induction rest as [|a rest IH]; intros acc e H; simpl.
  - destruct H as [H | []]. exact H.
  - apply IH. destruct H as [H | [-> | H]].
    + left. rewrite Error_Errorf_w_v. now apply Contains_app_l.
    + left. rewrite Error_Errorf_w_v.
      apply Contains_app_r, Contains_app_r, Contains_refl.
    + now right.
Qed.

Lemma joinErrors_contains (errors : list error) (e : error) :
  In e errors ->
  exists j, joinErrors errors = Some j /\ Contains (Error_ j) (Error_ e).
Proof.
  destruct errors as [|e0 rest]; intros H; [destruct H|].
  simpl. eexists; split; [reflexivity|].
  apply fold_Errorf_contains.
  destruct H as [-> | H]; [left; apply Contains_refl | now right].
Qed.

Lemma joinErrors_None (errors : list error) :
  joinErrors errors = None <-> errors = [].
Proof.
  destruct errors; simpl; split; intros H; congruence.
Qed.

Lemma in_errorsOf (sts : list ExecStats) (e : error) :
  In e (errorsOf sts) <-> exists st, In st sts /\ Error st = Some e.
Proof.
  unfold errorsOf. rewrite in_flat_map. split.
  - intros (st & Hin & He). exists st. split; [exact Hin|].
    destruct (Error st) as [e'|]; simpl in He; [|destruct He].
    destruct He as [-> | []]. reflexivity.
  - intros (st & Hin & He). exists st. split; [exact Hin|].
    rewrite He. now left.
Qed.

(** ** The receive loop *)

Lemma total_app (l1 l2 : list Z) : total (l1 ++ l2) = total l1 + total l2.
Proof.
  unfold total. induction l1 as [|x l1 IH]; simpl; [reflexivity | lia].
Qed.

(** One receive, in closed form. *)
Lemma receive_eq (errs : list error) (s c : Z) (st : ExecStats) :
  receive (errs, wrap64 s, wrap64 c) st =
  (errs ++ errorsOf [st],
   wrap64 (s + total (map Avg (active [st]))),
   wrap64 (c + Z.of_nat (List.length (active [st])))).
Proof.
  unfold receive, active, errorsOf. simpl.
  destruct (0 <? Count st), (Error st); simpl;
    rewrite ?wrap64_add_l, ?app_nil_r, ?Z.add_0_r; reflexivity.
Qed.

(** The accumulator after a step's receive loop, in closed form. *)
Lemma fold_receive (sts : list ExecStats) :
  forall (errs : list error) (s c : Z),
    fold_left receive sts (errs, wrap64 s, wrap64 c) =
    (errs ++ errorsOf sts,
     wrap64 (s + total (map Avg (active sts))),
     wrap64 (c + Z.of_nat (List.length (active sts)))).
Proof.
  induction sts as [|st sts IH]; intros errs s c.
  - simpl. now rewrite app_nil_r, !Z.add_0_r.
  - cbn [fold_left]. rewrite receive_eq, IH.
    change (st :: sts) with ([st] ++ sts).
    unfold active, errorsOf.
    rewrite flat_map_app, filter_app, map_app, total_app, length_app.
    rewrite Nat2Z.inj_add, <- app_assoc, !Z.add_assoc. reflexivity.
Qed.

Lemma aggregate_eq (sts : list ExecStats) :
  aggregate sts =
  let sum := wrap64 (total (map Avg (active sts))) in
  let count := wrap64 (Z.of_nat (List.length (active sts))) in
  {| Min := 0;
     Avg := if 0 <? count then Z.quot (Z.quot sum count) count else sum;
     Max := 0;
     Count := count;
     Error := joinErrors (errorsOf sts) |}.
Proof.
  unfold aggregate.
  change (@nil error, 0, 0) with (@nil error, wrap64 0, wrap64 0).
  rewrite fold_receive. reflexivity.
Qed.

Lemma aggregate_Error (sts : list ExecStats) :
  Error (aggregate sts) = joinErrors (errorsOf sts).
Proof. rewrite aggregate_eq. reflexivity. Qed.

(** The earlier revision's receive loop: the exact sums of [Avg * Count]
    and of [Count], wrapped once. *)
Lemma Stress_fold_receive (sts : list Stress.ExecStats) :
  forall (s c : Z),
    fold_left Stress.receive sts (wrap64 s, wrap64 c) =
    (wrap64 (s + total (map (fun st => Stress.Avg st * Stress.Count st) sts)),
     wrap64 (c + total (map Stress.Count sts))).
Proof.
  induction sts as [|st sts IH]; intros s c.
  - simpl. now rewrite !Z.add_0_r.
  - cbn [fold_left Stress.receive].
    rewrite (Z.add_comm (wrap64 s)), !wrap64_add_l.
    rewrite (Z.add_comm _ (wrap64 s)), wrap64_add_l, IH.
    cbn [map total fold_right].
    fold (total (map (fun st => Stress.Avg st * Stress.Count st) sts)).
    fold (total (map Stress.Count sts)).
    rewrite !Z.add_assoc. reflexivity.
Qed.

(** The earlier revision computes the count-weighted mean: a step of
    [StressQuery] stores [Σ Avg_i * Count_i / Σ Count_i] and [Σ Count_i]
    whenever these sums fit in 64 bits. *)
Lemma Stress_merged_weighted (sts : list Stress.ExecStats) :
  int64_range (total (map (fun st => Stress.Avg st * Stress.Count st) sts)) ->
  int64_range (total (map Stress.Count sts)) ->
  Stress.merged sts =
  (total (map (fun st => Stress.Avg st * Stress.Count st) sts),
   total (map Stress.Count sts)).
Proof.
  intros Hs Hc. unfold Stress.merged.
  change (0, 0) with (wrap64 0, wrap64 0).
  rewrite Stress_fold_receive, !Z.add_0_l, !wrap64_id by assumption.
  reflexivity.
Qed.

(** ** [Launcher.Run], unfolded *)

Lemma Run_failed (env : Env) (q : Query) :
  IsFailed (ToExecInfo (executeAndMeasure (baseline env)) "" 1) = true ->
  Run env q =
  (executeAndMeasure (baseline env),
   [SaveQueryExecInfo
      (ToExecInfo (executeAndMeasure (baseline env)) (SQL q) 1)]).
Proof.
  intros H. unfold Run. cbv zeta. rewrite H. reflexivity.
Qed.

Lemma Run_ramp (env : Env) (q : Query) :
  IsFailed (ToExecInfo (executeAndMeasure (baseline env)) "" 1) = false ->
  Run env q =
  (aggregate (received env 3 400),
   [SaveQueryExecInfo
      (ToExecInfo (executeAndMeasure (baseline env)) (SQL q) 1);
    RunMany 50;
    SaveQueryExecInfo (ToExecInfo (aggregate (received env 0 50)) (SQL q) 50);
    RunMany 100;
    SaveQueryExecInfo
      (ToExecInfo (aggregate (received env 1 100)) (SQL q) 100);
    RunMany 200;
    SaveQueryExecInfo
      (ToExecInfo (aggregate (received env 2 200)) (SQL q) 200);
    RunMany 400;
    SaveQueryExecInfo
      (ToExecInfo (aggregate (received env 3 400)) (SQL q) 400)]).
Proof.
  intros H. unfold Run. cbv zeta. rewrite H.
  cbn [rampLoop]. cbv zeta.
  change (wrap64 (25 * 2)) with 50.
  change (wrap64 (50 * 2)) with 100.
  change (wrap64 (100 * 2)) with 200.
  change (wrap64 (200 * 2)) with 400.
  reflexivity.
Qed.

(** ** The ramp controller *)

(** C4.  When the first, single-worker measurement carries an error or has
    [Count == 0], [Run] returns that measurement, hands exactly that one
    result to the history store and launches no ramp step. *)
Theorem baseline_failure_skips_ramp (env : Env) (q : Query) :
  Error (executeAndMeasure (baseline env)) <> None \/
  Count (executeAndMeasure (baseline env)) = 0 ->
  fst (Run env q) = executeAndMeasure (baseline env) /\
  rampCounts (snd (Run env q)) = [] /\
  reported (snd (Run env q)) =
    [ToExecInfo (executeAndMeasure (baseline env)) (SQL q) 1].
Proof.
  intros H. rewrite Run_failed; [repeat split|].
  unfold ToExecInfo. cbn [IsFailed].
  destruct H as [H | H].
  - destruct (Error (executeAndMeasure (baseline env))); [reflexivity|].
    congruence.
  - rewrite H. cbn [Z.eqb]. now rewrite orb_true_r.
Qed.

Lemma baseline_failure_skips_ramp_witness :
  let env := {| baseline := {| connect := Some (errorString "refused");
                               execs := [] |};
                worker := fun _ _ => steady 5 (90 * Millisecond) |} in
  let q := {| SQL := "select 1" |} in
  fst (Run env q) = executeAndMeasure (baseline env) /\
  rampCounts (snd (Run env q)) = [] /\
  reported (snd (Run env q)) =
    [ToExecInfo (executeAndMeasure (baseline env)) (SQL q) 1].
Proof.
  intros env q. apply (baseline_failure_skips_ramp env q).
  left. vm_compute. discriminate.
Defined.

(** C5.  When the first measurement is not a failure, [Run] launches
    exactly four ramp steps, with 50, 100, 200 and 400 workers: a strictly
    increasing sequence in which every count is at least twice the one
    before.  The same counts are reported with the results. *)
Theorem ramp_counts_double (env : Env) (q : Query) :
  IsFailed (ToExecInfo (executeAndMeasure (baseline env)) "" 1) = false ->
  rampCounts (snd (Run env q)) = [50; 100; 200; 400] /\
  List.length (rampCounts (snd (Run env q))) = 4%nat /\
  doubling (rampCounts (snd (Run env q))) /\
  map Conns (reported (snd (Run env q))) = [1; 50; 100; 200; 400].
Proof.
  intros H. rewrite (Run_ramp env q H). cbn [snd rampCounts reported map].
  repeat split; simpl; lia.
Qed.

Lemma ramp_counts_double_witness :
  let env := steadyEnv 5 (90 * Millisecond) in
  let q := {| SQL := "select 1" |} in
  rampCounts (snd (Run env q)) = [50; 100; 200; 400] /\
  List.length (rampCounts (snd (Run env q))) = 4%nat /\
  doubling (rampCounts (snd (Run env q))) /\
  map Conns (reported (snd (Run env q))) = [1; 50; 100; 200; 400].
Proof.
  intros env q. apply (ramp_counts_double env q). vm_compute. reflexivity.
Defined.

(** C8.  When the first measurement is not a failure, whatever the ramp
    workers do, all four ramp steps run and are reported, each with the
    aggregate of its own workers, and [Run] returns the aggregate of the
    fourth step. *)
Theorem ramp_runs_to_the_end (env : Env) (q : Query) :
  IsFailed (ToExecInfo (executeAndMeasure (baseline env)) "" 1) = false ->
  fst (Run env q) = aggregate (received env 3 400) /\
  rampCounts (snd (Run env q)) = [50; 100; 200; 400] /\
  reported (snd (Run env q)) =
    [ToExecInfo (executeAndMeasure (baseline env)) (SQL q) 1;
     ToExecInfo (aggregate (received env 0 50)) (SQL q) 50;
     ToExecInfo (aggregate (received env 1 100)) (SQL q) 100;
     ToExecInfo (aggregate (received env 2 200)) (SQL q) 200;
     ToExecInfo (aggregate (received env 3 400)) (SQL q) 400].
Proof.
  intros H. rewrite (Run_ramp env q H). repeat split.
Qed.

Lemma ramp_runs_to_the_end_witness :
  let env := roughEnv in
  let q := {| SQL := "select 1" |} in
  fst (Run env q) = aggregate (received env 3 400) /\
  rampCounts (snd (Run env q)) = [50; 100; 200; 400] /\
  reported (snd (Run env q)) =
    [ToExecInfo (executeAndMeasure (baseline env)) (SQL q) 1;
     ToExecInfo (aggregate (received env 0 50)) (SQL q) 50;
     ToExecInfo (aggregate (received env 1 100)) (SQL q) 100;
     ToExecInfo (aggregate (received env 2 200)) (SQL q) 200;
     ToExecInfo (aggregate (received env 3 400)) (SQL q) 400].
Proof.
  intros env q. apply (ramp_runs_to_the_end env q). vm_compute. reflexivity.
Defined.

(** ** The aggregation of a ramp step *)

(** C6.  The error of a step's aggregate is non-nil exactly when some
    worker's result carries an error, and its message contains the message
    of every worker error. *)
Theorem aggregate_joins_all_errors (sts : list ExecStats) :
  (Error (aggregate sts) <> None <->
   exists st, In st sts /\ Error st <> None) /\
  (forall st e, In st sts -> Error st = Some e ->
     exists j, Error (aggregate sts) = Some j /\
               Contains (Error_ j) (Error_ e)).
Proof.
  rewrite aggregate_Error. split.
  - rewrite joinErrors_None. split.
    + intros H. destruct (errorsOf sts) as [|e es] eqn:E; [congruence|].
      assert (Hin : In e (errorsOf sts)) by (rewrite E; now left).
      apply in_errorsOf in Hin. destruct Hin as (st & Hin & He).
      exists st. split; [exact Hin | congruence].
    + intros (st & Hin & He) E.
      destruct (Error st) as [e|] eqn:Est; [|congruence].
      assert (Hine : In e (errorsOf sts))
        by (apply in_errorsOf; exists st; auto).
      rewrite E in Hine. destruct Hine.
  - intros st e Hin He. apply joinErrors_contains.
    apply in_errorsOf. exists st. auto.
Qed.

(** C1 (the code departs from the claim).  In the ramp step of 100 workers,
    when every worker reports [Count = 5] and [Avg = 90ms], the aggregate
    that [Run] reports has [Avg = 0.9ms]: the sum of the averages divided
    twice by the number of workers.  The count-weighted mean of the
    per-worker averages is 90ms. *)
Theorem step_avg_is_not_the_weighted_mean :
  let env := steadyEnv 5 (90 * Millisecond) in
  let q := {| SQL := "select 1" |} in
  let sts := received env 1 100 in
  Forall (fun st => Count st = 5 /\ Avg st = 90 * Millisecond /\
                    Error st = None) sts /\
  nth_error (reported (snd (Run env q))) 2 =
    Some (ToExecInfo (aggregate sts) (SQL q) 100) /\
  Avg (aggregate sts) = 900000 /\
  weightedMean sts = 90 * Millisecond.
Proof.
  intros env q sts. split; [|split; [|split]].
  - apply Forall_forall. intros st Hin.
    unfold sts, received in Hin. apply in_map_iff in Hin.
    destruct Hin as (i & <- & _). vm_compute. repeat split.
  - vm_compute. reflexivity.
  - vm_compute. reflexivity.
  - vm_compute. reflexivity.
Qed.

(** C2 (the code departs from the claim).  In the ramp step of 100 workers,
    when every worker reports [Count = 5], the aggregate that [Run] reports
    has [Count = 100], the number of workers that completed an execution;
    the sum of the per-worker counts is 500. *)
Theorem step_count_is_not_the_sum_of_counts :
  let env := steadyEnv 5 (90 * Millisecond) in
  let q := {| SQL := "select 1" |} in
  let sts := received env 1 100 in
  Forall (fun st => Count st = 5) sts /\
  nth_error (reported (snd (Run env q))) 2 =
    Some (ToExecInfo (aggregate sts) (SQL q) 100) /\
  Count (aggregate sts) = 100 /\
  totalCount sts = 500.
Proof.
  intros env q sts. split; [|split; [|split]].
  - apply Forall_forall. intros st Hin.
    unfold sts, received in Hin. apply in_map_iff in Hin.
    destruct Hin as (i & <- & _). vm_compute. reflexivity.
  - vm_compute. reflexivity.
  - vm_compute. reflexivity.
  - vm_compute. reflexivity.
Qed.

(** What a step of [Run] stores in [Count], for any received results that
    number fewer than [2^63]: the number of workers with [Count > 0]. *)
Lemma aggregate_Count (sts : list ExecStats) :
  Z.of_nat (List.length sts) < 2 ^ 63 ->
  Count (aggregate sts) = Z.of_nat (List.length (active sts)).
Proof.
  intros H. rewrite aggregate_eq. cbn [Count].
  apply wrap64_id. unfold int64_range, active.
  pose proof (filter_length_le (fun st => 0 <? Count st) sts). lia.
Qed.

(** ** The single-worker measurer *)

Lemma finish_Count (stats : ExecStats) (sum : Z) :
  Count (finish stats sum) = Count stats.
Proof. unfold finish. destruct (0 <? Count stats); reflexivity. Qed.

Lemma finish_Error (stats : ExecStats) (sum : Z) :
  Error (finish stats sum) = Error stats.
Proof. unfold finish. destruct (0 <? Count stats); reflexivity. Qed.

Lemma finish_Min (stats : ExecStats) (sum : Z) :
  Min (finish stats sum) = Min stats.
Proof. unfold finish. destruct (0 <? Count stats); reflexivity. Qed.

(** On every path the loop returns the number of completed executions. *)
Lemma measureLoop_Count (tr : list ExecResult) :
  forall (stats : ExecStats) (sum c : Z),
    Count stats = wrap64 c ->
    Count (measureLoop tr stats sum) =
    wrap64 (c + Z.of_nat (List.length (completed tr))).
Proof.
  induction tr as [|[elapsed | err] rest IH]; intros stats sum c Hc.
  - simpl. now rewrite finish_Count, Z.add_0_r.
  - cbn [measureLoop completed List.length].
    rewrite (IH _ _ (c + 1)).
    + f_equal. lia.
    + cbn [Count]. rewrite Hc. apply wrap64_add_l.
  - cbn [measureLoop completed List.length]. rewrite Z.add_0_r.
    destruct (errors_Is err DeadlineExceeded || errors_Is err Canceled).
    + now rewrite finish_Count.
    + exact Hc.
Qed.

(** Leaving the loop through [break] sets no error. *)
Lemma measureLoop_Error_budget (tr : list ExecResult) :
  forall (stats : ExecStats) (sum : Z),
    stopsOnBudget tr = true ->
    Error (measureLoop tr stats sum) = Error stats.
Proof.
  induction tr as [|[elapsed | err] rest IH]; intros stats sum H.
  - simpl. apply finish_Error.
  - cbn [measureLoop]. cbn [stopsOnBudget] in H. now rewrite IH.
  - cbn [measureLoop]. cbn [stopsOnBudget] in H. rewrite H.
    apply finish_Error.
Qed.

(** An execution error that is neither a deadline nor a cancellation is
    returned together with the count accumulated before it. *)
Lemma measureLoop_Error_failure (oks : list Z) (err : error)
  (rest : list ExecResult) :
  forall (stats : ExecStats) (sum : Z),
    errors_Is err DeadlineExceeded || errors_Is err Canceled = false ->
    Error (measureLoop (map ExecOk oks ++ ExecErr err :: rest) stats sum)
    = Some err.
Proof.
  induction oks as [|elapsed oks IH]; intros stats sum H.
  - simpl. rewrite H. reflexivity.
  - simpl. now apply IH.
Qed.

Lemma completed_oks (oks : list Z) (err : error) (rest : list ExecResult) :
  completed (map ExecOk oks ++ ExecErr err :: rest) = oks.
Proof.
  induction oks as [|elapsed oks IH]; simpl; [reflexivity | now rewrite IH].
Qed.

(** The earlier revision returns [ExecStats{}] with the error. *)
Lemma Stress_measureLoop_failure (oks : list Z) (err : error)
  (rest : list ExecResult) :
  forall (stats : Stress.ExecStats) (sum : Z),
    errors_Is err DeadlineExceeded || errors_Is err Canceled = false ->
    Stress.measureLoop (map ExecOk oks ++ ExecErr err :: rest) stats sum
    = (Stress.zeroStats, Some err).
Proof.
  induction oks as [|elapsed oks IH]; intros stats sum H.
  - simpl. rewrite H. reflexivity.
  - simpl. now apply IH.
Qed.

(** C3 (the code departs from the claim).  A worker whose third execution
    fails with an error that is neither a deadline nor a cancellation, after
    two executions of 5ms and 7ms, returns the error together with
    [Count = 2], [Min = 5ms] and [Max = 7ms]: the statistics accumulated
    before the failure are not discarded.  The earlier revision of the
    function returns the zero statistics and the error there. *)
Theorem failure_keeps_accumulated_stats :
  let boom := errorString "syntax error" in
  let tr := [ExecOk (5 * Millisecond); ExecOk (7 * Millisecond);
             ExecErr boom] in
  executeAndMeasure {| connect := None; execs := tr |} =
    {| Min := 5 * Millisecond; Avg := 0; Max := 7 * Millisecond;
       Count := 2; Error := Some boom |} /\
  Stress.executeAndMeasure tr = (Stress.zeroStats, Some boom).
Proof.
  split; vm_compute; reflexivity.
Qed.

(** C7 (as amended).  When [pgx.Connect] succeeded and the loop is left
    because the context is done or an execution fails with a deadline or a
    cancellation, the result has no error and its [Count] is the number of
    executions completed before; when no execution completed, [Count] and
    [Avg] are both zero. *)
Theorem budget_expiry_is_not_an_error (w : World) :
  connect w = None ->
  stopsOnBudget (execs w) = true ->
  Error (executeAndMeasure w) = None /\
  Count (executeAndMeasure w) =
    wrap64 (Z.of_nat (List.length (completed (execs w)))) /\
  (completed (execs w) = [] ->
   Count (executeAndMeasure w) = 0 /\ Avg (executeAndMeasure w) = 0).
Proof.
  intros Hc Hb. unfold executeAndMeasure. rewrite Hc.
  split; [|split].
  - now rewrite measureLoop_Error_budget.
  - now rewrite (measureLoop_Count _ _ _ 0).
  - intros Hnone. destruct (execs w) as [|[elapsed | err] rest].
    + split; reflexivity.
    + discriminate Hnone.
    + cbn [stopsOnBudget] in Hb. cbn [measureLoop]. rewrite Hb.
      split; reflexivity.
Qed.

Lemma budget_expiry_is_not_an_error_witness :
  let w := {| connect := None;
              execs := [ExecErr (wrapError "timeout: context deadline exceeded"
                                   DeadlineExceeded)] |} in
  Error (executeAndMeasure w) = None /\
  Count (executeAndMeasure w) =
    wrap64 (Z.of_nat (List.length (completed (execs w)))) /\
  (completed (execs w) = [] ->
   Count (executeAndMeasure w) = 0 /\ Avg (executeAndMeasure w) = 0).
Proof.
  intros w. apply (budget_expiry_is_not_an_error w); reflexivity.
Defined.

(** C7 as stated fails: a context cancelled while [pgx.Connect] runs ends
    the measurement with no execution error, and the connection error,
    which wraps [context.Canceled], is returned in [Error]. *)
Lemma cancelled_connect_is_an_error :
  let cancelled :=
    wrapError "failed to connect: context canceled" Canceled in
  let w := {| connect := Some cancelled; execs := [] |} in
  errors_Is cancelled Canceled = true /\
  stopsOnBudget (execs w) = true /\
  completed (execs w) = [] /\
  Error (executeAndMeasure w) = Some cancelled /\
  Error (executeAndMeasure w) <> None.
Proof.
  cbv zeta. repeat split. discriminate.
Qed.

Lemma measureLoop_Min_Hour (tr : list ExecResult) :
  forall (stats : ExecStats) (sum : Z),
    Min stats = Hour ->
    (forall elapsed, In elapsed (completed tr) -> Hour < elapsed) ->
    Min (measureLoop tr stats sum) = Hour.
Proof.
  induction tr as [|[elapsed | err] rest IH]; intros stats sum Hm Hall.
  - simpl. now rewrite finish_Min.
  - cbn [measureLoop]. apply IH.
    + cbn [Min]. rewrite Hm.
      assert (Hour < elapsed) by (apply Hall; now left). lia.
    + intros e He. apply Hall. now right.
  - cbn [measureLoop].
    destruct (errors_Is err DeadlineExceeded || errors_Is err Canceled).
    + now rewrite finish_Min.
    + exact Hm.
Qed.

(** C10.  [Min] starts at [time.Hour], 3600 * 10^9 ns.  When the
    connection is up and every completed execution took longer than one
    hour, the returned [Min] is one hour, below every measured latency. *)
Theorem min_sentinel_is_one_hour (w : World) :
  connect w = None ->
  (forall elapsed, In elapsed (completed (execs w)) -> Hour < elapsed) ->
  Hour = 3600 * 1000000000 /\
  Min (executeAndMeasure w) = Hour /\
  (forall elapsed, In elapsed (completed (execs w)) ->
     Min (executeAndMeasure w) < elapsed).
Proof.
  intros Hc Hall.
  assert (Hmin : Min (executeAndMeasure w) = Hour).
  { unfold executeAndMeasure. rewrite Hc.
    now apply measureLoop_Min_Hour. }
  split; [reflexivity | split; [exact Hmin|]].
  intros elapsed Hin. rewrite Hmin. now apply Hall.
Qed.

Lemma min_sentinel_is_one_hour_witness :
  let w := {| connect := None;
              execs := [ExecOk (2 * Hour); ExecOk (3 * Hour)] |} in
  Hour = 3600 * 1000000000 /\
  Min (executeAndMeasure w) = Hour /\
  (forall elapsed, In elapsed (completed (execs w)) ->
     Min (executeAndMeasure w) < elapsed).
Proof.
  intros w. apply (min_sentinel_is_one_hour w); [reflexivity|].
  intros elapsed [<- | [<- | []]]; vm_compute; reflexivity.
Defined.

(** ** The data-model invariant *)

Lemma finish_invariant (stats : ExecStats) (sum : Z) :
  0 <= Count stats -> 0 <= sum ->
  Avg stats = 0 ->
  (Count stats = 0 -> Max stats = 0) ->
  Min stats * Count stats <= sum <= Max stats * Count stats ->
  statsInvariant (finish stats sum).
Proof.
  intros Hc Hs Ha Hz Hb. unfold finish, statsInvariant.
  destruct (0 <? Count stats) eqn:E.
  - apply Z.ltb_lt in E. cbn [Count Avg Min Max].
    split; [lia|]. intros _.
    rewrite Z.quot_div_nonneg by lia. split.
    + apply Z.div_le_lower_bound; lia.
    + apply Z.div_le_upper_bound; lia.
  - apply Z.ltb_ge in E. split; [intros H0; auto | lia].
Qed.

(** The loop keeps [Min * Count <= sum <= Max * Count] as long as neither
    the count nor the sum of the latencies leaves the 64-bit range. *)
Lemma measureLoop_invariant (tr : list ExecResult) :
  forall (stats : ExecStats) (sum : Z),
    stopsOnBudget tr = true ->
    Forall (fun elapsed => 0 <= elapsed) (completed tr) ->
    Count stats + Z.of_nat (List.length (completed tr)) < 2 ^ 63 ->
    sum + total (completed tr) < 2 ^ 63 ->
    0 <= Count stats -> 0 <= sum ->
    Avg stats = 0 ->
    (Count stats = 0 -> Max stats = 0) ->
    Min stats * Count stats <= sum <= Max stats * Count stats ->
    statsInvariant (measureLoop tr stats sum).
Proof.
  induction tr as [|[elapsed | err] rest IH];
    intros stats sum Hb Hpos Hlen Htot Hc Hs Ha Hz Hinv.
  - simpl. now apply finish_invariant.
  - cbn [measureLoop]. cbn [stopsOnBudget] in Hb.
    cbn [completed List.length total fold_right] in Hpos, Hlen, Htot.
    fold (total (completed rest)) in Htot.
    inversion Hpos as [|? ? He Hrest]; subst.
    assert (Htot0 : 0 <= total (completed rest)).
    { clear - Hrest. induction Hrest as [|x l Hx Hl IHl];
        cbn [total fold_right]; [lia|].
      fold (total l). lia. }
    rewrite Nat2Z.inj_succ in Hlen.
    rewrite (wrap64_id (Count stats + 1)) by (unfold int64_range; lia).
    rewrite (wrap64_id (sum + elapsed)) by (unfold int64_range; lia).
    apply IH; cbn [Count Avg Min Max]; try assumption; try lia.
    destruct (Z.min_spec (Min stats) elapsed) as [[? ->] | [? ->]];
      destruct (Z.max_spec (Max stats) elapsed) as [[? ->] | [? ->]];
      nia.
  - cbn [measureLoop]. cbn [stopsOnBudget] in Hb. rewrite Hb.
    now apply finish_invariant.
Qed.

Lemma aggregate_no_data (sts : list ExecStats) :
  Z.of_nat (List.length sts) < 2 ^ 63 ->
  Count (aggregate sts) = 0 -> Avg (aggregate sts) = 0.
Proof.
  intros Hlen H0. pose proof (aggregate_Count sts Hlen) as Hc.
  rewrite H0 in Hc.
  rewrite aggregate_eq. cbn [Avg].
  destruct (active sts) as [|st l]; [reflexivity|].
  cbn [List.length] in Hc. lia.
Qed.

(** C9 (as amended).  A measurement with no execution error other than a
    deadline or a cancellation, whose latencies are non-negative and whose
    count and sum of latencies fit in 64 bits, satisfies the invariant:
    [Count == 0] gives [Avg == 0] and [Max == 0], and [Count > 0] gives
    [Min <= Avg <= Max].  The aggregate of a ramp step does not track
    [Min] and [Max], which are both zero there, and it has [Avg == 0] when
    its [Count] is zero. *)
Theorem stats_invariant_amended (w : World) (sts : list ExecStats) :
  stopsOnBudget (execs w) = true ->
  Forall (fun elapsed => 0 <= elapsed) (completed (execs w)) ->
  Z.of_nat (List.length (completed (execs w))) < 2 ^ 63 ->
  total (completed (execs w)) < 2 ^ 63 ->
  Z.of_nat (List.length sts) < 2 ^ 63 ->
  statsInvariant (executeAndMeasure w) /\
  Min (aggregate sts) = 0 /\ Max (aggregate sts) = 0 /\
  (Count (aggregate sts) = 0 -> Avg (aggregate sts) = 0).
Proof.
  intros Hb Hpos Hlen Htot Hsts. split; [|split; [|split]].
  - unfold executeAndMeasure. destruct (connect w) as [err|].
    + split; cbn [Count Avg Max Min]; [auto | lia].
    + apply measureLoop_invariant; cbn [Count Avg Max Min];
        try assumption; try lia; auto.
  - rewrite aggregate_eq. reflexivity.
  - rewrite aggregate_eq. reflexivity.
  - now apply aggregate_no_data.
Qed.

Lemma stats_invariant_amended_witness :
  let w := {| connect := None;
              execs := [ExecOk (5 * Millisecond); ExecOk (8 * Millisecond);
                        ExecErr Canceled] |} in
  let sts := [executeAndMeasure w;
              executeAndMeasure (steady 3 (2 * Millisecond))] in
  statsInvariant (executeAndMeasure w) /\
  Min (aggregate sts) = 0 /\ Max (aggregate sts) = 0 /\
  (Count (aggregate sts) = 0 -> Avg (aggregate sts) = 0).
Proof.
  intros w sts. apply (stats_invariant_amended w sts).
  - reflexivity.
  - repeat constructor; vm_compute; discriminate.
  - vm_compute. reflexivity.
  - vm_compute. reflexivity.
  - vm_compute. reflexivity.
Defined.

(** C9 as stated fails: with five executions of 90ms in every ramp worker,
    the result of [Run] has [Count = 400], [Avg = 225000] and [Max = 0]. *)
Lemma stats_invariant_fails_on_aggregate :
  ~ statsInvariant
      (fst (Run (steadyEnv 5 (90 * Millisecond)) {| SQL := "select 1" |})).
Proof.
  intros [_ H].
  assert (Hrun :
    fst (Run (steadyEnv 5 (90 * Millisecond)) {| SQL := "select 1" |}) =
    {| Min := 0; Avg := 225000; Max := 0; Count := 400; Error := None |})
    by (vm_compute; reflexivity).
  rewrite Hrun in H. cbn [Count Min Avg Max] in H. lia.
Qed.

(** * Further properties of the launcher *)

(** ** [ToExecInfo] *)

(** The record built by [ToExecInfo] is consistent: it is marked failed
    exactly when its comment is not "ok"; the comment is "timeout" exactly
    when there is no error and [Count] or [Avg] is zero; and an error always
    gives the comment "error: " followed by its message, whatever [Count]
    and [Avg] are. *)
Theorem ToExecInfo_comment_agrees_with_IsFailed
  (s : ExecStats) (query : string) (conns : Z) :
  (IsFailed (ToExecInfo s query conns) = false <->
   Comment (ToExecInfo s query conns) = "ok"%string) /\
  (Comment (ToExecInfo s query conns) = "timeout"%string <->
   Error s = None /\ (Count s = 0 \/ Avg s = 0)) /\
  (forall e, Error s = Some e ->
     IsFailed (ToExecInfo s query conns) = true /\
     Comment (ToExecInfo s query conns) = ("error: " ++ Error_ e)%string).
Proof.
  unfold ToExecInfo. cbn [IsFailed Comment].
  destruct (Error s) as [e|]; cbn [isSome orb].
  - split; [|split].
    + split; intros H; [discriminate H | simpl in H; discriminate H].
    + split; [simpl; intros H; discriminate H | intros [H _]; discriminate H].
    + intros e' He. injection He as <-. split; reflexivity.
  - destruct (Z.eqb_spec (Count s) 0) as [Hc | Hc];
      destruct (Z.eqb_spec (Avg s) 0) as [Ha | Ha]; cbn [orb];
      (split; [|split]);
      try (intros e' He; discriminate He);
      split; intros H; try discriminate H; try reflexivity; auto;
      destruct H as [_ [H | H]]; contradiction.
Qed.

(** ** [Launcher.Run] *)

(** [Run] goes on to the ramp exactly when the first measurement has no
    error, a non-zero [Count] and a non-zero [Avg]: a first measurement with
    executions but a zero average stops it as well. *)
Theorem Run_ramps_iff_baseline_ok (env : Env) (q : Query) :
  rampCounts (snd (Run env q)) <> [] <->
  Error (executeAndMeasure (baseline env)) = None /\
  Count (executeAndMeasure (baseline env)) <> 0 /\
  Avg (executeAndMeasure (baseline env)) <> 0.
Proof.
  destruct (IsFailed (ToExecInfo (executeAndMeasure (baseline env)) "" 1))
    eqn:E.
  - rewrite (Run_failed env q E). cbn [snd rampCounts].
    unfold ToExecInfo in E. cbn [IsFailed] in E.
    split; [intros H; now contradiction H|].
    intros (He & Hc & Ha). rewrite He in E. cbn [isSome orb] in E.
    apply Z.eqb_neq in Hc, Ha. rewrite Hc, Ha in E. discriminate E.
  - rewrite (Run_ramp env q E). cbn [snd rampCounts].
    unfold ToExecInfo in E. cbn [IsFailed] in E.
    apply orb_false_elim in E. destruct E as [E Ea].
    apply orb_false_elim in E. destruct E as [Ee Ec].
    split; [intros _ | intros _; discriminate].
    apply Z.eqb_neq in Ec, Ea.
    destruct (Error (executeAndMeasure (baseline env))); [discriminate Ee|].
    auto.
Qed.

(** Whatever happens, [Run] hands one or five results to the history store,
    all for the query's own text; the first is the single-connection
    measurement and the last carries exactly the statistics that [Run]
    returns. *)
Theorem Run_returns_last_reported (env : Env) (q : Query) :
  exists first rest last_,
    reported (snd (Run env q)) = first :: rest /\
    last (first :: rest) first = last_ /\
    Info last_ = fst (Run env q) /\
    Conns first = 1 /\
    Info first = executeAndMeasure (baseline env) /\
    (List.length rest = 0%nat \/ List.length rest = 4%nat) /\
    Forall (fun info => Query_ info = SQL q) (first :: rest).
Proof.
  destruct (IsFailed (ToExecInfo (executeAndMeasure (baseline env)) "" 1))
    eqn:E.
  - rewrite (Run_failed env q E). cbn [snd fst reported].
    do 3 eexists. split; [reflexivity|].
    cbn [last]. repeat split; auto; repeat constructor.
  - rewrite (Run_ramp env q E). cbn [snd fst reported].
    do 3 eexists. split; [reflexivity|].
    cbn [last]. repeat split; auto; repeat constructor.
Qed.

(** ** The aggregation of a ramp step, in closed form *)

(** The [Count] of a step's aggregate is the number of workers that
    completed at least one execution, so it lies between zero and the
    number of workers. *)
Theorem aggregate_Count_is_active_workers (sts : list ExecStats) :
  Z.of_nat (List.length sts) < 2 ^ 63 ->
  Count (aggregate sts) = Z.of_nat (List.length (active sts)) /\
  0 <= Count (aggregate sts) <= Z.of_nat (List.length sts).
Proof.
  intros H. rewrite (aggregate_Count sts H). split; [reflexivity|].
  unfold active.
  pose proof (filter_length_le (fun st => 0 <? Count st) sts). lia.
Qed.

Lemma aggregate_Count_is_active_workers_witness :
  let sts := [executeAndMeasure (steady 3 (2 * Millisecond));
              executeAndMeasure {| connect := None; execs := [] |};
              executeAndMeasure (steady 1 (9 * Millisecond))] in
  Count (aggregate sts) = Z.of_nat (List.length (active sts)) /\
  0 <= Count (aggregate sts) <= Z.of_nat (List.length sts).
Proof.
  intros sts. apply (aggregate_Count_is_active_workers sts).
  vm_compute. reflexivity.
Defined.

(** When [k > 0] workers completed an execution and the sum of their
    averages fits in 64 bits, the [Avg] of the aggregate is that sum divided
    by [k] and divided by [k] again. *)
Theorem aggregate_Avg_is_mean_over_workers (sts : list ExecStats) :
  Z.of_nat (List.length sts) < 2 ^ 63 ->
  int64_range (total (map Avg (active sts))) ->
  active sts <> [] ->
  Avg (aggregate sts) =
  Z.quot (Z.quot (total (map Avg (active sts)))
                 (Z.of_nat (List.length (active sts))))
         (Z.of_nat (List.length (active sts))).
Proof.
  intros Hlen Hsum Hne. rewrite aggregate_eq. cbn [Avg].
  assert (Hk : 0 < Z.of_nat (List.length (active sts))).
  { destruct (active sts); [congruence | cbn [List.length]; lia]. }
  assert (Hle : Z.of_nat (List.length (active sts)) < 2 ^ 63).
  { unfold active.
    pose proof (filter_length_le (fun st => 0 <? Count st) sts). lia. }
  rewrite (wrap64_id (Z.of_nat _)) by (unfold int64_range; lia).
  rewrite (wrap64_id (total _)) by assumption.
  apply Z.ltb_lt in Hk. rewrite Hk. reflexivity.
Qed.

Lemma aggregate_Avg_is_mean_over_workers_witness :
  let sts := [executeAndMeasure (steady 3 (20 * Millisecond));
              executeAndMeasure {| connect := None; execs := [] |};
              executeAndMeasure (steady 1 (60 * Millisecond))] in
  Avg (aggregate sts) =
  Z.quot (Z.quot (total (map Avg (active sts)))
                 (Z.of_nat (List.length (active sts))))
         (Z.of_nat (List.length (active sts))).
Proof.
  intros sts. apply (aggregate_Avg_is_mean_over_workers sts).
  - vm_compute. reflexivity.
  - split; vm_compute; [intros H; discriminate H | reflexivity].
  - vm_compute. discriminate.
Defined.

Lemma Permutation_active (l l' : list ExecStats) :
  Permutation l l' -> Permutation (active l) (active l').
Proof.
  unfold active. induction 1 as [|x l l' _ IH|x y l|l l' l'' _ IH1 _ IH2];
    cbn [filter].
  - constructor.
  - destruct (0 <? Count x); [now constructor | exact IH].
  - destruct (0 <? Count x), (0 <? Count y);
      try apply Permutation_refl; apply perm_swap.
  - now transitivity (filter (fun st => 0 <? Count st) l').
Qed.

Lemma total_Permutation (l l' : list Z) :
  Permutation l l' -> total l = total l'.
Proof.
  unfold total. induction 1; cbn [fold_right]; lia.
Qed.

(** The numbers of a step's aggregate do not depend on the order in which
    the workers' results arrive on the channel, and neither does the
    presence of an error. *)
Theorem aggregate_is_order_independent (sts sts' : list ExecStats) :
  Permutation sts sts' ->
  Count (aggregate sts) = Count (aggregate sts') /\
  Avg (aggregate sts) = Avg (aggregate sts') /\
  Min (aggregate sts) = Min (aggregate sts') /\
  Max (aggregate sts) = Max (aggregate sts') /\
  (Error (aggregate sts) = None <-> Error (aggregate sts') = None).
Proof.
  intros HP. rewrite !aggregate_eq. cbn [Count Avg Min Max Error].
  pose proof (Permutation_active _ _ HP) as HA.
  rewrite (Permutation_length HA).
  rewrite (total_Permutation _ _ (Permutation_map Avg HA)).
  repeat split; try reflexivity.
  - rewrite !joinErrors_None. intros H.
    apply Permutation_nil. rewrite <- H.
    apply Permutation_flat_map, HP.
  - rewrite !joinErrors_None. intros H.
    apply Permutation_nil. rewrite <- H.
    apply Permutation_flat_map, Permutation_sym, HP.
Qed.

Lemma aggregate_is_order_independent_witness :
  let a := executeAndMeasure (steady 3 (20 * Millisecond)) in
  let b := executeAndMeasure
             {| connect := Some (errorString "refused"); execs := [] |} in
  let c := executeAndMeasure (steady 1 (60 * Millisecond)) in
  Count (aggregate [a; b; c]) = Count (aggregate [c; a; b]) /\
  Avg (aggregate [a; b; c]) = Avg (aggregate [c; a; b]) /\
  Min (aggregate [a; b; c]) = Min (aggregate [c; a; b]) /\
  Max (aggregate [a; b; c]) = Max (aggregate [c; a; b]) /\
  (Error (aggregate [a; b; c]) = None <->
   Error (aggregate [c; a; b]) = None).
Proof.
  intros a b c. apply (aggregate_is_order_independent [a; b; c] [c; a; b]).
  apply Permutation_sym.
  apply (Permutation_cons_app [a; b] [] c). apply Permutation_refl.
Defined.

(** When every worker of a step comes back with no execution and no error,
    the aggregate is the zero value, which [ToExecInfo] reports as a
    timeout. *)
Theorem aggregate_of_timeouts_is_a_timeout (sts : list ExecStats) :
  Forall (fun st => Count st = 0 /\ Error st = None) sts ->
  aggregate sts =
    {| Min := 0; Avg := 0; Max := 0; Count := 0; Error := None |} /\
  forall query conns,
    Comment (ToExecInfo (aggregate sts) query conns) = "timeout"%string.
Proof.
  intros H.
  assert (Hagg : aggregate sts =
    {| Min := 0; Avg := 0; Max := 0; Count := 0; Error := None |}).
  { rewrite aggregate_eq.
    assert (Ha : active sts = []).
    { unfold active. induction H as [|st l [Hc _] _ IH]; cbn [filter].
      - reflexivity.
      - rewrite Hc. cbn [Z.ltb Z.compare]. exact IH. }
    assert (He : errorsOf sts = []).
    { clear Ha. unfold errorsOf.
      induction H as [|st l [_ He] _ IH]; cbn [flat_map].
      - reflexivity.
      - rewrite He. exact IH. }
    rewrite Ha, He. reflexivity. }
  split; [exact Hagg|]. intros query conns. rewrite Hagg. reflexivity.
Qed.

Lemma aggregate_of_timeouts_is_a_timeout_witness :
  let sts := [executeAndMeasure {| connect := None; execs := [] |};
              executeAndMeasure
                {| connect := None; execs := [ExecErr DeadlineExceeded] |}] in
  aggregate sts =
    {| Min := 0; Avg := 0; Max := 0; Count := 0; Error := None |} /\
  forall query conns,
    Comment (ToExecInfo (aggregate sts) query conns) = "timeout"%string.
Proof.
  intros sts. apply (aggregate_of_timeouts_is_a_timeout sts).
  repeat constructor.
Defined.

(** ** The joined error *)

Lemma concat_absorb (sep x y : string) (l : list string) :
  String.concat sep ((x ++ sep ++ y)%string :: l) =
  String.concat sep (x :: y :: l).
Proof.
  destruct l as [|z l]; cbn [String.concat]; [reflexivity|].
  now rewrite !append_assoc.
Qed.

Lemma fold_Errorf_message (rest : list error) :
  forall acc : error,
    Error_ (fold_left Errorf_w_v rest acc) =
    String.concat "; " (Error_ acc :: map Error_ rest).
Proof.
  induction rest as [|a rest IH]; intros acc.
  - reflexivity.
  - cbn [fold_left map]. rewrite IH, Error_Errorf_w_v.
    apply concat_absorb.
Qed.

Lemma fold_Errorf_Is (rest : list error) :
  forall acc target : error,
    errors_Is (fold_left Errorf_w_v rest acc) target = errors_Is acc target.
Proof.
  induction rest as [|a rest IH]; intros acc target.
  - reflexivity.
  - cbn [fold_left]. rewrite IH. unfold Errorf_w_v.
    cbn [errors_Is isSentinel]. reflexivity.
Qed.

(** The message of a step's error is the messages of the worker errors, in
    the order of arrival, separated by "; ". *)
Theorem joined_error_message (sts : list ExecStats) :
  option_map Error_ (Error (aggregate sts)) =
  match errorsOf sts with
  | [] => None
  | errs => Some (String.concat "; " (map Error_ errs))
  end.
Proof.
  rewrite aggregate_Error.
  destruct (errorsOf sts) as [|e0 rest]; [reflexivity|].
  cbn [joinErrors option_map]. now rewrite fold_Errorf_message.
Qed.

(** Only the first worker error is wrapped ([%w]); the others are
    formatted into the message ([%v]).  So asking [errors.Is] whether a
    step's error is a deadline, or a cancellation, gives the answer for the
    first error received and for no other. *)
Theorem joined_error_unwraps_to_first (sts : list ExecStats)
  (e0 : error) (rest : list error) :
  errorsOf sts = e0 :: rest ->
  exists j, Error (aggregate sts) = Some j /\
            errors_Is j DeadlineExceeded = errors_Is e0 DeadlineExceeded /\
            errors_Is j Canceled = errors_Is e0 Canceled.
Proof.
  intros H. rewrite aggregate_Error, H. cbn [joinErrors].
  eexists. split; [reflexivity|]. split; apply fold_Errorf_Is.
Qed.

Lemma joined_error_unwraps_to_first_witness :
  let sts := [executeAndMeasure
                {| connect := Some (errorString "refused"); execs := [] |};
              executeAndMeasure
                {| connect := Some Canceled; execs := [] |}] in
  exists j, Error (aggregate sts) = Some j /\
            errors_Is j DeadlineExceeded
            = errors_Is (errorString "refused") DeadlineExceeded /\
            errors_Is j Canceled
            = errors_Is (errorString "refused") Canceled.
Proof.
  intros sts.
  apply (joined_error_unwraps_to_first sts (errorString "refused")
           [Canceled]).
  reflexivity.
Defined.

(** ** The single-worker measurer, in closed form *)

Lemma finish_Max (stats : ExecStats) (sum : Z) :
  Max (finish stats sum) = Max stats.
Proof. unfold finish. destruct (0 <? Count stats); reflexivity. Qed.

Lemma measureLoop_cut (oks : list Z) (err : error) (rest : list ExecResult) :
  forall (stats : ExecStats) (sum : Z),
    measureLoop (map ExecOk oks ++ ExecErr err :: rest) stats sum =
    measureLoop (map ExecOk oks ++ [ExecErr err]) stats sum.
Proof.
  induction oks as [|elapsed oks IH]; intros stats sum.
  - reflexivity.
  - cbn [map app measureLoop]. apply IH.
Qed.

Lemma measureLoop_failure_Avg (oks : list Z) (err : error)
  (rest : list ExecResult) :
  forall (stats : ExecStats) (sum : Z),
    errors_Is err DeadlineExceeded || errors_Is err Canceled = false ->
    Avg (measureLoop (map ExecOk oks ++ ExecErr err :: rest) stats sum)
    = Avg stats.
Proof.
  induction oks as [|elapsed oks IH]; intros stats sum H.
  - simpl. rewrite H. reflexivity.
  - cbn [map app measureLoop]. now rewrite IH.
Qed.

(** An execution error that is neither a deadline nor a cancellation ends
    the measurement at once: what the connection would have answered
    afterwards does not matter.  The result carries the error, the number of
    executions completed before it, and a zero [Avg]. *)
Theorem failure_returns_partial_stats (oks : list Z) (err : error)
  (rest : list ExecResult) :
  errors_Is err DeadlineExceeded || errors_Is err Canceled = false ->
  let r := executeAndMeasure
             {| connect := None;
                execs := map ExecOk oks ++ ExecErr err :: rest |} in
  r = executeAndMeasure
        {| connect := None; execs := map ExecOk oks ++ [ExecErr err] |} /\
  Error r = Some err /\
  Avg r = 0 /\
  Count r = wrap64 (Z.of_nat (List.length oks)).
Proof.
  intros H r. unfold r, executeAndMeasure. cbn [connect execs].
  split; [apply measureLoop_cut|]. split; [|split].
  - now apply measureLoop_Error_failure.
  - now rewrite measureLoop_failure_Avg.
  - rewrite (measureLoop_Count _ _ _ 0) by reflexivity.
    now rewrite completed_oks.
Qed.

Lemma failure_returns_partial_stats_witness :
  let oks := [4 * Millisecond; 6 * Millisecond] in
  let err := errorString "deadlock detected" in
  let rest := [ExecOk Millisecond] in
  let r := executeAndMeasure
             {| connect := None;
                execs := map ExecOk oks ++ ExecErr err :: rest |} in
  r = executeAndMeasure
        {| connect := None; execs := map ExecOk oks ++ [ExecErr err] |} /\
  Error r = Some err /\
  Avg r = 0 /\
  Count r = wrap64 (Z.of_nat (List.length oks)).
Proof.
  intros oks err rest.
  apply (failure_returns_partial_stats oks err rest). reflexivity.
Defined.

Lemma measureLoop_bounds (tr : list ExecResult) :
  forall (stats : ExecStats) (sum : Z),
    let r := measureLoop tr stats sum in
    Min r <= Min stats /\ Max stats <= Max r /\
    (forall x, In x (completed tr) -> Min r <= x <= Max r) /\
    (Min r = Min stats \/ In (Min r) (completed tr)) /\
    (Max r = Max stats \/ In (Max r) (completed tr)).
Proof.
  induction tr as [|[elapsed | err] rest IH]; intros stats sum r.
  - unfold r. cbn [measureLoop completed].
    rewrite finish_Min, finish_Max.
    split; [lia|]. split; [lia|].
      split; [intros x Hx; destruct Hx|]. split; auto.
  - unfold r. cbn [measureLoop completed].
    match goal with |- context [measureLoop rest ?s ?m] =>
      specialize (IH s m); cbv zeta in IH; cbn [Min Max] in IH;
      set (r' := measureLoop rest s m) in *
    end.
    destruct IH as (Hmin & Hmax & Hall & Hm & HM).
    split; [lia|]. split; [lia|]. split; [|split].
    + intros x [<- | Hx]; [lia | now apply Hall].
    + destruct Hm as [Hm | Hm]; [|right; now right].
      rewrite Hm.
      destruct (Z.min_spec (Min stats) elapsed) as [[_ ->] | [_ ->]];
        [now left | right; now left].
    + destruct HM as [HM | HM]; [|right; now right].
      rewrite HM.
      destruct (Z.max_spec (Max stats) elapsed) as [[_ ->] | [_ ->]];
        [right; now left | now left].
  - unfold r. cbn [measureLoop completed].
    destruct (errors_Is err DeadlineExceeded || errors_Is err Canceled).
    + rewrite finish_Min, finish_Max.
      split; [lia|]. split; [lia|].
      split; [intros x Hx; destruct Hx|]. split; auto.
    + cbn [withError Min Max].
      split; [lia|]. split; [lia|].
      split; [intros x Hx; destruct Hx|]. split; auto.
Qed.

(** On a connection that is up, [Min] and [Max] bound every measured
    latency, [Max] is the largest latency or zero, and [Min] is the smallest
    latency or the one-hour starting value. *)
Theorem Min_Max_are_the_extremes (w : World) :
  connect w = None ->
  let r := executeAndMeasure w in
  (forall x, In x (completed (execs w)) -> Min r <= x <= Max r) /\
  (Min r = Hour \/ In (Min r) (completed (execs w))) /\
  (Max r = 0 \/ In (Max r) (completed (execs w))) /\
  Min r <= Hour /\ 0 <= Max r.
Proof.
  intros Hc r. unfold r, executeAndMeasure. rewrite Hc.
  pose proof (measureLoop_bounds (execs w)
    {| Min := Hour; Avg := 0; Max := 0; Count := 0; Error := None |} 0) as H.
  cbv zeta in H. cbn [Min Max] in H.
  destruct H as (Hmin & Hmax & Hall & Hm & HM). auto.
Qed.

Lemma Min_Max_are_the_extremes_witness :
  let w := {| connect := None;
              execs := [ExecOk (7 * Millisecond); ExecOk (3 * Millisecond);
                        ExecErr (errorString "deadlock detected")] |} in
  let r := executeAndMeasure w in
  (forall x, In x (completed (execs w)) -> Min r <= x <= Max r) /\
  (Min r = Hour \/ In (Min r) (completed (execs w))) /\
  (Max r = 0 \/ In (Max r) (completed (execs w))) /\
  Min r <= Hour /\ 0 <= Max r.
Proof.
  intros w. apply (Min_Max_are_the_extremes w). reflexivity.
Defined.

Lemma total_nonneg (l : list Z) :
  Forall (fun x => 0 <= x) l -> 0 <= total l.
Proof.
  unfold total. induction 1; cbn [fold_right]; lia.
Qed.

Lemma measureLoop_sum (tr : list ExecResult) :
  forall (stats : ExecStats) (sum : Z),
    stopsOnBudget tr = true ->
    Forall (fun elapsed => 0 <= elapsed) (completed tr) ->
    Count stats + Z.of_nat (List.length (completed tr)) < 2 ^ 63 ->
    sum + total (completed tr) < 2 ^ 63 ->
    0 <= Count stats -> 0 <= sum ->
    let r := measureLoop tr stats sum in
    Count r = Count stats + Z.of_nat (List.length (completed tr)) /\
    (0 < Count r -> Avg r = Z.quot (sum + total (completed tr)) (Count r)).
Proof.
  induction tr as [|[elapsed | err] rest IH];
    intros stats sum Hb Hpos Hlen Htot Hc Hs r; unfold r.
  - cbn [measureLoop completed List.length total fold_right].
    rewrite !Z.add_0_r, finish_Count. split; [reflexivity|].
    intros H. unfold finish. apply Z.ltb_lt in H. rewrite H. reflexivity.
  - cbn [measureLoop]. cbn [stopsOnBudget] in Hb.
    cbn [completed List.length total fold_right] in *.
    fold (total (completed rest)) in *.
    inversion Hpos as [|? ? He Hrest]; subst.
    pose proof (total_nonneg _ Hrest) as Ht.
    rewrite Nat2Z.inj_succ in *.
    rewrite (wrap64_id (Count stats + 1)) by (unfold int64_range; lia).
    rewrite (wrap64_id (sum + elapsed)) by (unfold int64_range; lia).
    match goal with |- context [measureLoop rest ?s ?m] =>
      specialize (IH s m Hb Hrest); cbv zeta in IH; cbn [Count] in IH
    end.
    destruct IH as [IHc IHa]; try lia.
    split; [lia|]. intros H. rewrite (IHa H). f_equal. lia.
  - cbn [measureLoop]. cbn [stopsOnBudget] in Hb. rewrite Hb.
    cbn [completed List.length total fold_right].
    rewrite !Z.add_0_r, finish_Count. split; [reflexivity|].
    intros H. unfold finish. apply Z.ltb_lt in H. rewrite H. reflexivity.
Qed.

(** When the loop is left on the budget, with latencies that are
    non-negative and whose number and sum fit in 64 bits, [Count] is the
    number of completed executions and [Avg] is their total time divided by
    that number, rounded towards zero. *)
Theorem Avg_is_total_over_count (w : World) :
  connect w = None ->
  stopsOnBudget (execs w) = true ->
  Forall (fun elapsed => 0 <= elapsed) (completed (execs w)) ->
  Z.of_nat (List.length (completed (execs w))) < 2 ^ 63 ->
  total (completed (execs w)) < 2 ^ 63 ->
  Count (executeAndMeasure w) =
    Z.of_nat (List.length (completed (execs w))) /\
  (completed (execs w) <> [] ->
   Avg (executeAndMeasure w) =
     Z.quot (total (completed (execs w)))
            (Z.of_nat (List.length (completed (execs w))))).
Proof.
  intros Hc Hb Hpos Hlen Htot. unfold executeAndMeasure. rewrite Hc.
  pose proof (measureLoop_sum (execs w)
    {| Min := Hour; Avg := 0; Max := 0; Count := 0; Error := None |} 0
    Hb Hpos) as H.
  cbv zeta in H. cbn [Count] in H.
  destruct H as [H1 H2]; try lia.
  rewrite Z.add_0_l in H1, H2. split; [exact H1|].
  intros Hne. rewrite H2; [now rewrite H1|].
  rewrite H1. destruct (completed (execs w)); [congruence|].
  cbn [List.length]. lia.
Qed.

Lemma Avg_is_total_over_count_witness :
  let w := {| connect := None;
              execs := [ExecOk (7 * Millisecond); ExecOk (4 * Millisecond);
                        ExecErr DeadlineExceeded] |} in
  Count (executeAndMeasure w) =
    Z.of_nat (List.length (completed (execs w))) /\
  (completed (execs w) <> [] ->
   Avg (executeAndMeasure w) =
     Z.quot (total (completed (execs w)))
            (Z.of_nat (List.length (completed (execs w))))).
Proof.
  intros w. apply (Avg_is_total_over_count w).
  - reflexivity.
  - reflexivity.
  - repeat constructor; vm_compute; discriminate.
  - vm_compute. reflexivity.
  - vm_compute. reflexivity.
Defined.

Lemma measureLoop_break (oks : list Z) (err : error)
  (rest : list ExecResult) :
  forall (stats : ExecStats) (sum : Z),
    errors_Is err DeadlineExceeded || errors_Is err Canceled = true ->
    measureLoop (map ExecOk oks ++ ExecErr err :: rest) stats sum =
    measureLoop (map ExecOk oks) stats sum.
Proof.
  induction oks as [|elapsed oks IH]; intros stats sum H.
  - cbn [map app measureLoop]. rewrite H. reflexivity.
  - cbn [map app measureLoop]. now apply IH.
Qed.

(** An execution that fails with a deadline or a cancellation, directly or
    wrapped in another error, ends the measurement exactly as a context that
    is done before that execution: the result is that of the executions
    completed so far. *)
Theorem deadline_error_ends_like_done (oks : list Z) (err : error)
  (rest : list ExecResult) :
  errors_Is err DeadlineExceeded || errors_Is err Canceled = true ->
  executeAndMeasure
    {| connect := None; execs := map ExecOk oks ++ ExecErr err :: rest |} =
  executeAndMeasure {| connect := None; execs := map ExecOk oks |}.
Proof.
  intros H. unfold executeAndMeasure. cbn [connect execs].
  now apply measureLoop_break.
Qed.

Lemma deadline_error_ends_like_done_witness :
  let err := wrapError "timeout: context deadline exceeded"
               DeadlineExceeded in
  executeAndMeasure
    {| connect := None;
       execs := map ExecOk [Millisecond; 2 * Millisecond]
                ++ ExecErr err :: [ExecOk Millisecond] |} =
  executeAndMeasure
    {| connect := None; execs := map ExecOk [Millisecond; 2 * Millisecond] |}.
Proof.
  intros err.
  apply (deadline_error_ends_like_done [Millisecond; 2 * Millisecond] err
           [ExecOk Millisecond]).
  reflexivity.
Defined.

(** ** The two revisions of the measurer *)

Lemma measureLoop_revisions (tr : list ExecResult) :
  forall (s : ExecStats) (s' : Stress.ExecStats) (sum : Z),
    stopsOnBudget tr = true ->
    Stress.Min s' = Min s -> Stress.Avg s' = Avg s ->
    Stress.Max s' = Max s -> Stress.Count s' = Count s ->
    let r := measureLoop tr s sum in
    Stress.measureLoop tr s' sum =
    ({| Stress.Min := Min r; Stress.Avg := Avg r;
        Stress.Max := Max r; Stress.Count := Count r |}, None).
Proof.
  assert (Hfin : forall (s : ExecStats) (s' : Stress.ExecStats) (sum : Z),
    Stress.Min s' = Min s -> Stress.Avg s' = Avg s ->
    Stress.Max s' = Max s -> Stress.Count s' = Count s ->
    Stress.finish s' sum =
    {| Stress.Min := Min (finish s sum); Stress.Avg := Avg (finish s sum);
       Stress.Max := Max (finish s sum);
       Stress.Count := Count (finish s sum) |}).
  { intros s s' sum Hm Ha HM Hc. unfold Stress.finish, finish.
    rewrite Hc. destruct (0 <? Count s); cbn [Min Avg Max Count].
    - now rewrite Hm, HM.
    - destruct s'; cbn in *. congruence. }
  induction tr as [|[elapsed | err] rest IH];
    intros s s' sum Hb Hm Ha HM Hc r; unfold r.
  - cbn [measureLoop Stress.measureLoop]. f_equal. now apply Hfin.
  - cbn [measureLoop Stress.measureLoop]. cbn [stopsOnBudget] in Hb.
    apply IH; cbn [Stress.Min Stress.Avg Stress.Max Stress.Count
                   Min Avg Max Count]; congruence.
  - cbn [measureLoop Stress.measureLoop]. cbn [stopsOnBudget] in Hb.
    rewrite Hb. f_equal. now apply Hfin.
Qed.

(** As long as no execution fails with an error other than a deadline or a
    cancellation, the measurer of [Launcher.Run] and the one of
    [StressQuery] return the same [Min], [Avg], [Max] and [Count], and
    neither reports an error. *)
Theorem revisions_agree_without_failure (tr : list ExecResult) :
  stopsOnBudget tr = true ->
  let r := executeAndMeasure {| connect := None; execs := tr |} in
  Stress.executeAndMeasure tr =
    ({| Stress.Min := Min r; Stress.Avg := Avg r;
        Stress.Max := Max r; Stress.Count := Count r |}, None) /\
  Error r = None.
Proof.
  intros Hb r. split.
  - unfold r, executeAndMeasure, Stress.executeAndMeasure.
    cbn [connect execs]. now apply measureLoop_revisions.
  - unfold r, executeAndMeasure. cbn [connect execs].
    now rewrite measureLoop_Error_budget.
Qed.

Lemma revisions_agree_without_failure_witness :
  let tr := [ExecOk (7 * Millisecond); ExecOk (4 * Millisecond);
             ExecErr Canceled] in
  let r := executeAndMeasure {| connect := None; execs := tr |} in
  Stress.executeAndMeasure tr =
    ({| Stress.Min := Min r; Stress.Avg := Avg r;
        Stress.Max := Max r; Stress.Count := Count r |}, None) /\
  Error r = None.
Proof.
  intros tr. apply (revisions_agree_without_failure tr). reflexivity.
Defined.

(** ** [StressQuery] *)

Lemma Stress_measureLoop_fails (tr : list ExecResult) :
  forall (s : Stress.ExecStats) (sum : Z),
    stopsOnBudget tr = false ->
    exists err,
      errors_Is err DeadlineExceeded || errors_Is err Canceled = false /\
      In (ExecErr err) tr /\
      Stress.measureLoop tr s sum = (Stress.zeroStats, Some err).
Proof.
  induction tr as [|[elapsed | err] rest IH]; intros s sum Hb.
  - discriminate Hb.
  - cbn [stopsOnBudget] in Hb. cbn [Stress.measureLoop].
    match goal with |- context [Stress.measureLoop rest ?a ?b] =>
      destruct (IH a b Hb) as (err & Hne & Hin & Heq)
    end.
    exists err. split; [exact Hne|]. split; [now right | exact Heq].
  - cbn [stopsOnBudget] in Hb. cbn [Stress.measureLoop]. rewrite Hb.
    exists err. split; [exact Hb|]. split; [now left | reflexivity].
Qed.

Lemma Stress_rampLoop_Min_Max (env : Stress.Env) (left : nat) :
  forall (iter : nat) (stats : Stress.ExecStats),
    Stress.Min (Stress.rampLoop env left iter stats) = Stress.Min stats /\
    Stress.Max (Stress.rampLoop env left iter stats) = Stress.Max stats.
Proof.
  induction left as [|left IH]; intros iter stats.
  - split; reflexivity.
  - cbn [Stress.rampLoop].
    destruct (Stress.merged (Stress.received env iter 50)) as [sum count].
    destruct (count =? 0); [split; reflexivity|].
    match goal with |- context [Stress.rampLoop env left ?i ?s] =>
      destruct (IH i s) as [H1 H2]
    end.
    rewrite H1, H2. split; reflexivity.
Qed.

Lemma Stress_executeAndMeasure_ok (tr : list ExecResult) :
  stopsOnBudget tr = true -> snd (Stress.executeAndMeasure tr) = None.
Proof.
  intros Hb. unfold Stress.executeAndMeasure.
  rewrite (measureLoop_revisions tr
    {| Min := Hour; Avg := 0; Max := 0; Count := 0; Error := None |});
    auto.
Qed.

Lemma StressQuery_ok (env : Stress.Env) :
  Stress.connect env = None ->
  stopsOnBudget (Stress.baseline env) = true ->
  exists s,
    Stress.StressQuery env = inl s /\
    Stress.Min s =
      Stress.Min (fst (Stress.executeAndMeasure (Stress.baseline env))) /\
    Stress.Max s =
      Stress.Max (fst (Stress.executeAndMeasure (Stress.baseline env))).
Proof.
  intros Hc Hb. unfold Stress.StressQuery. rewrite Hc.
  pose proof (Stress_executeAndMeasure_ok (Stress.baseline env) Hb) as Hok.
  destruct (Stress.executeAndMeasure (Stress.baseline env)) as [stats e].
  cbn [snd] in Hok. subst e. cbn [fst].
  match goal with |- context [if ?c then _ else _] => destruct c end.
  - eexists. split; [reflexivity|]. split; reflexivity.
  - eexists. split; [reflexivity|]. apply Stress_rampLoop_Min_Max.
Qed.

(** [StressQuery] fails only on its own connection and on its first
    measurement.  When both are fine it returns statistics whatever the
    workers of the ramp steps do: their errors are dropped.  The [Min] and
    [Max] it returns are always those of the first measurement. *)
Theorem StressQuery_drops_worker_errors (env : Stress.Env) :
  Stress.connect env = None ->
  stopsOnBudget (Stress.baseline env) = true ->
  exists s,
    Stress.StressQuery env = inl s /\
    Stress.Min s =
      Stress.Min (fst (Stress.executeAndMeasure (Stress.baseline env))) /\
    Stress.Max s =
      Stress.Max (fst (Stress.executeAndMeasure (Stress.baseline env))).
Proof.
  exact (StressQuery_ok env).
Qed.

Lemma StressQuery_drops_worker_errors_witness :
  let env := {| Stress.connect := None;
                Stress.baseline := [ExecOk (5 * Millisecond)];
                Stress.worker := fun _ _ =>
                  [ExecErr (errorString "deadlock detected")] |} in
  exists s,
    Stress.StressQuery env = inl s /\
    Stress.Min s =
      Stress.Min (fst (Stress.executeAndMeasure (Stress.baseline env))) /\
    Stress.Max s =
      Stress.Max (fst (Stress.executeAndMeasure (Stress.baseline env))).
Proof.
  intros env. apply (StressQuery_drops_worker_errors env); reflexivity.
Defined.

(** [StressQuery] returns an error in two cases only.  A failed connection
    is returned as it is.  A first measurement that hits an execution error
    other than a deadline or a cancellation is returned wrapped, with the
    message prefixed by "failed initial run: ". *)
Theorem StressQuery_errors (env : Stress.Env) :
  (forall e, Stress.connect env = Some e -> Stress.StressQuery env = inr e) /\
  (Stress.connect env = None ->
   stopsOnBudget (Stress.baseline env) = false ->
   exists err,
     In (ExecErr err) (Stress.baseline env) /\
     errors_Is err DeadlineExceeded || errors_Is err Canceled = false /\
     Stress.StressQuery env =
       inr (wrapError ("failed initial run: " ++ Error_ err)%string err)) /\
  ((exists e, Stress.StressQuery env = inr e) <->
   Stress.connect env <> None \/
   stopsOnBudget (Stress.baseline env) = false).
Proof.
  assert (H1 : forall e, Stress.connect env = Some e ->
                         Stress.StressQuery env = inr e).
  { intros e He. unfold Stress.StressQuery. now rewrite He. }
  assert (H2 : Stress.connect env = None ->
    stopsOnBudget (Stress.baseline env) = false ->
    exists err,
      In (ExecErr err) (Stress.baseline env) /\
      errors_Is err DeadlineExceeded || errors_Is err Canceled = false /\
      Stress.StressQuery env =
        inr (wrapError ("failed initial run: " ++ Error_ err)%string err)).
  { intros Hc Hb. unfold Stress.StressQuery, Stress.executeAndMeasure.
    rewrite Hc.
    match goal with |- context [Stress.measureLoop _ ?a ?b] =>
      destruct (Stress_measureLoop_fails (Stress.baseline env) a b Hb)
        as (err & Hne & Hin & Heq)
    end.
    exists err. rewrite Heq. auto. }
  split; [exact H1|]. split; [exact H2|]. split.
  - intros [e He].
    destruct (Stress.connect env) as [c|] eqn:Hc; [left; discriminate|].
    right. destruct (stopsOnBudget (Stress.baseline env)) eqn:Hb;
      [|reflexivity].
    destruct (StressQuery_ok env Hc Hb) as (s & Hs & _).
    congruence.
  - intros [Hc | Hb].
    + destruct (Stress.connect env) as [c|] eqn:Hc'; [|congruence].
      exists c. now apply H1.
    + destruct (Stress.connect env) as [c|] eqn:Hc.
      * exists c. now apply H1.
      * destruct (H2 eq_refl Hb) as (err & _ & _ & Heq). eauto.
Qed.

(** A step of [StressQuery] whose workers completed executions stores, as
    long as the sums fit in 64 bits, the count-weighted mean of the
    per-worker averages and the sum of the per-worker counts, and goes on to
    the next step. *)
Theorem Stress_step_is_weighted_mean (env : Stress.Env) (left iter : nat)
  (stats : Stress.ExecStats) :
  let sts := Stress.received env iter 50 in
  let wsum := total (map (fun st => Stress.Avg st * Stress.Count st) sts) in
  let count := total (map Stress.Count sts) in
  int64_range wsum -> int64_range count -> count <> 0 ->
  Stress.rampLoop env (S left) iter stats =
  Stress.rampLoop env left (S iter)
    {| Stress.Min := Stress.Min stats; Stress.Avg := Z.quot wsum count;
       Stress.Max := Stress.Max stats; Stress.Count := count |}.
Proof.
  intros sts wsum count Hw Hc Hne. cbn [Stress.rampLoop].
  fold sts. rewrite (Stress_merged_weighted sts Hw Hc).
  fold wsum count. apply Z.eqb_neq in Hne. rewrite Hne. reflexivity.
Qed.

Lemma Stress_step_is_weighted_mean_witness :
  let env := {| Stress.connect := None;
                Stress.baseline := [ExecOk (5 * Millisecond)];
                Stress.worker := fun _ i =>
                  repeat (ExecOk (Z.of_nat (S i) * Millisecond)) (S i) |} in
  let stats := fst (Stress.executeAndMeasure (Stress.baseline env)) in
  let sts := Stress.received env 0 50 in
  let wsum := total (map (fun st => Stress.Avg st * Stress.Count st) sts) in
  let count := total (map Stress.Count sts) in
  Stress.rampLoop env 1 0 stats =
  Stress.rampLoop env 0 1
    {| Stress.Min := Stress.Min stats; Stress.Avg := Z.quot wsum count;
       Stress.Max := Stress.Max stats; Stress.Count := count |}.
Proof.
  intros env stats.
  apply (Stress_step_is_weighted_mean env 0 0 stats).
  - split; vm_compute; [intros H; discriminate H | reflexivity].
  - split; vm_compute; [intros H; discriminate H | reflexivity].
  - vm_compute. discriminate.
Defined.

(** A step of [StressQuery] in which no worker completed an execution
    leaves the loop: the statistics of the steps before are returned and
    the remaining steps are not run. *)
Theorem Stress_empty_step_stops (env : Stress.Env) (left iter : nat)
  (stats : Stress.ExecStats) :
  Forall (fun st => Stress.Count st = 0) (Stress.received env iter 50) ->
  Stress.rampLoop env (S left) iter stats = stats.
Proof.
  intros H. cbn [Stress.rampLoop]. unfold Stress.merged.
  change (0, 0) with (wrap64 0, wrap64 0). rewrite Stress_fold_receive.
  assert (Hc : total (map Stress.Count (Stress.received env iter 50)) = 0).
  { induction H as [|st l Hst _ IH]; [reflexivity|].
    cbn [map total fold_right]. fold (total (map Stress.Count l)). lia. }
  rewrite Hc. reflexivity.
Qed.

Lemma Stress_empty_step_stops_witness :
  let env := {| Stress.connect := None;
                Stress.baseline := [ExecOk (5 * Millisecond)];
                Stress.worker := fun _ _ => [ExecErr DeadlineExceeded] |} in
  let stats := fst (Stress.executeAndMeasure (Stress.baseline env)) in
  Stress.rampLoop env 4 0 stats = stats.
Proof.
  intros env stats. apply (Stress_empty_step_stops env 3 0 stats).
  apply Forall_forall. intros st Hin.
  unfold Stress.received in Hin. apply in_map_iff in Hin.
  destruct Hin as (i & <- & _). reflexivity.
Defined.

(** * Package [ingest] *)

Lemma Normalize_eq (conf : Ingest.Config) :
  Ingest.Normalize conf =
  {| Ingest.TableName :=
       if (Ingest.TableName conf =? "")%string
       then Ingest.defaultTableName else Ingest.TableName conf;
     Ingest.BatchSize :=
       if Ingest.BatchSize conf =? 0
       then Ingest.defaultBatchSize else Ingest.BatchSize conf |}.
Proof.
  destruct conf as [name size].
  cbv beta iota zeta delta
    [Ingest.Normalize Ingest.TableName Ingest.BatchSize].
  destruct (name =? "")%string;
    cbv beta iota zeta delta [Ingest.TableName Ingest.BatchSize];
    destruct (size =? 0); reflexivity.
Qed.

(** After [Normalize] the table name is not empty and the batch size is not
    zero; a name and a size that were set are kept as they are, a negative
    size included; and normalising twice changes nothing more. *)
Theorem Normalize_fills_defaults (conf : Ingest.Config) :
  Ingest.TableName (Ingest.Normalize conf) <> ""%string /\
  Ingest.BatchSize (Ingest.Normalize conf) <> 0 /\
  (Ingest.TableName conf <> ""%string ->
   Ingest.TableName (Ingest.Normalize conf) = Ingest.TableName conf) /\
  (Ingest.BatchSize conf <> 0 ->
   Ingest.BatchSize (Ingest.Normalize conf) = Ingest.BatchSize conf) /\
  Ingest.Normalize (Ingest.Normalize conf) = Ingest.Normalize conf.
Proof.
  rewrite !Normalize_eq. cbn [Ingest.TableName Ingest.BatchSize].
  destruct conf as [name size]. cbn [Ingest.TableName Ingest.BatchSize].
  destruct (String.eqb_spec name "") as [Hn | Hn];
    destruct (Z.eqb_spec size 0) as [Hs | Hs];
    cbn [String.eqb Ascii.eqb Z.eqb Ingest.defaultTableName
         Ingest.defaultBatchSize];
    try (destruct (String.eqb_spec name "") as [Hn' | _];
         [contradiction|]);
    try (destruct (Z.eqb_spec size 0) as [Hs' | _]; [contradiction|]);
    repeat split; try congruence; try discriminate.
Qed.

Lemma pow1024_pos (k : Z) : 0 <= k -> 0 < 1024 ^ k.
Proof. intros H. apply Z.pow_pos_nonneg; lia. Qed.

(** The loop of [humanizeBytes], started at [div = 1024^(k+1)], [exp = k]
    on a number below [1024^(m+1)], with [m] steps of fuel at least. *)
Lemma scaleLoop_spec (fuel : nat) :
  forall (n k m : Z),
    0 <= k -> 0 <= m -> 0 <= n < 1024 ^ (m + 1) ->
    m <= Z.of_nat fuel -> k + m <= 5 ->
    exists j,
      0 <= j <= m /\
      Ingest.scaleLoop fuel n (1024 ^ (k + 1)) k
        = Some (1024 ^ (k + j + 1), k + j) /\
      n < 1024 ^ (j + 1) /\ (j = 0 \/ 1024 ^ j <= n).
Proof.
  induction fuel as [|fuel IH]; intros n k m Hk Hm Hn Hf Hkm.
  - assert (m = 0) by lia. subst m. change (1024 ^ (0 + 1)) with 1024 in Hn.
    exists 0. cbn [Ingest.scaleLoop]. unfold Ingest.unit.
    destruct (Z.geb_spec n 1024); [lia|].
    rewrite !Z.add_0_r. change (1024 ^ (0 + 1)) with 1024.
    repeat split; auto; lia.
  - cbn [Ingest.scaleLoop]. unfold Ingest.unit.
    destruct (Z.geb_spec n 1024) as [Hge | Hlt].
    + assert (Hm1 : 1 <= m).
      { destruct (Z.eq_dec m 0) as [-> | ]; [|lia].
        change (1024 ^ (0 + 1)) with 1024 in Hn. lia. }
      assert (Hq : 0 <= Z.quot n 1024 < 1024 ^ (m - 1 + 1)).
      { rewrite Z.quot_div_nonneg by lia. split.
        - apply Z.div_pos; lia.
        - apply Z.div_lt_upper_bound; [lia|].
          replace (m + 1) with (Z.succ (m - 1 + 1)) in Hn by lia.
          rewrite Z.pow_succ_r in Hn by lia. lia. }
      assert (Hdiv : wrap64 (1024 ^ (k + 1) * 1024) = 1024 ^ (k + 1 + 1)).
      { replace (k + 1 + 1) with (Z.succ (k + 1)) by lia.
        rewrite Z.pow_succ_r by lia.
        rewrite Z.mul_comm. apply wrap64_id. unfold int64_range.
        pose proof (pow1024_pos (k + 1)).
        assert (1024 ^ (k + 1) <= 1024 ^ 5)
          by (apply Z.pow_le_mono_r; lia).
        change (1024 ^ 5) with 1125899906842624 in *. lia. }
      assert (Hexp : wrap64 (k + 1) = k + 1)
        by (apply wrap64_id; unfold int64_range; lia).
      rewrite Hdiv, Hexp.
      destruct (IH (Z.quot n 1024) (k + 1) (m - 1))
        as (j & Hj & Heq & Hup & Hlow); try lia.
      exists (j + 1). split; [lia|]. split.
      * rewrite Heq.
        replace (k + (j + 1) + 1) with (k + 1 + j + 1) by lia.
        replace (k + (j + 1)) with (k + 1 + j) by lia. reflexivity.
      * rewrite Z.quot_div_nonneg in Hup, Hlow by lia.
        replace (j + 1 + 1) with (Z.succ (j + 1)) by lia.
        replace (j + 1) with (Z.succ j) in * by lia.
        rewrite !Z.pow_succ_r by lia.
        rewrite Z.pow_succ_r in Hup by lia.
        pose proof (pow1024_pos j).
        pose proof (Z.div_mod n 1024).
        pose proof (Z.mod_pos_bound n 1024).
        split; [nia|]. right.
        destruct Hlow as [-> | Hlow]; [change (1024 ^ 0) with 1; lia | nia].
    + exists 0. rewrite !Z.add_0_r. change (1024 ^ (0 + 1)) with 1024.
      repeat split; auto; lia.
Qed.

(** [humanizeBytes] never indexes outside "KMGTPE" and its loop ends
    within five rounds.  Below 1024 bytes, zero and negative numbers
    included, the result is "0 B".  From 1024 bytes on, the divisor handed
    to [Sprintf] is the largest power of 1024 not above the number,
    [1024^(k+1) <= b < 1024^(k+2)], and the letter is the [k]-th of
    "KMGTPE".  How [Sprintf] rounds and prints the quotient is not part of
    the statement. *)
Theorem humanizeBytes_picks_the_unit (fuel : nat) (b : Z) :
  int64_range b -> (5 <= fuel)%nat ->
  (b < 1024 -> Ingest.humanizeBytes fuel b = Returns Ingest.ZeroB) /\
  (1024 <= b ->
   exists k c,
     0 <= k <= 5 /\
     String.get (Z.to_nat k) "KMGTPE" = Some c /\
     Ingest.humanizeBytes fuel b
       = Returns (Ingest.Scaled b (1024 ^ (k + 1)) c) /\
     1024 ^ (k + 1) <= b < 1024 ^ (k + 2)).
Proof.
  intros Hb Hf. unfold Ingest.humanizeBytes, Ingest.unit. split.
  - intros Hlt. apply Z.ltb_lt in Hlt. now rewrite Hlt.
  - intros Hge. destruct (Z.ltb_spec b 1024) as [|_]; [lia|].
    unfold int64_range in Hb.
    assert (Hn : 0 <= Z.quot b 1024 < 1024 ^ (5 + 1)).
    { rewrite Z.quot_div_nonneg by lia. split.
      - apply Z.div_pos; lia.
      - apply Z.div_lt_upper_bound; [lia|].
        change (1024 ^ (5 + 1)) with 1152921504606846976.
        change (2 ^ 63) with 9223372036854775808 in Hb. lia. }
    destruct (scaleLoop_spec fuel (Z.quot b 1024) 0 5)
      as (j & Hj & Heq & Hup & Hlow); try lia.
    change (1024 ^ (0 + 1)) with 1024 in Heq. rewrite Heq.
    rewrite !Z.add_0_l.
    assert (Hs : exists c, Ingest.suffixAt j = Some c /\
                           String.get (Z.to_nat j) "KMGTPE" = Some c).
    { unfold Ingest.suffixAt.
      destruct (Z.leb_spec 0 j); [|lia].
      destruct (Z.ltb_spec j 6); [|lia]. cbn [andb].
      assert (Hcases : j = 0 \/ j = 1 \/ j = 2 \/ j = 3 \/ j = 4 \/ j = 5)
        by lia.
      destruct Hcases as [-> | [-> | [-> | [-> | [-> | ->]]]]];
        eexists; split; reflexivity. }
    destruct Hs as (c & Hs & Hget). rewrite Hs.
    exists j, c. split; [lia|]. split; [exact Hget|].
    split; [reflexivity|].
    rewrite Z.quot_div_nonneg in Hup, Hlow by lia.
    replace (j + 2) with (Z.succ (j + 1)) by lia.
    replace (j + 1) with (Z.succ j) in * by lia.
    rewrite !Z.pow_succ_r by lia. rewrite Z.pow_succ_r in Hup by lia.
    pose proof (pow1024_pos j).
    pose proof (Z.div_mod b 1024).
    pose proof (Z.mod_pos_bound b 1024).
    split; [|nia].
    destruct Hlow as [-> | Hlow]; [change (1024 ^ 0) with 1; lia | nia].
Qed.

Lemma humanizeBytes_picks_the_unit_witness :
  (12345 < 1024 ->
   Ingest.humanizeBytes 8 12345 = Returns Ingest.ZeroB) /\
  (1024 <= 12345 ->
   exists k c,
     0 <= k <= 5 /\
     String.get (Z.to_nat k) "KMGTPE" = Some c /\
     Ingest.humanizeBytes 8 12345
       = Returns (Ingest.Scaled 12345 (1024 ^ (k + 1)) c) /\
     1024 ^ (k + 1) <= 12345 < 1024 ^ (k + 2)).
Proof.
  apply (humanizeBytes_picks_the_unit 8 12345).
  - split; vm_compute; [intros H; discriminate H | reflexivity].
  - repeat constructor.
Defined.

Lemma copyLoop_oks (maxLen batchSize : Z) (ns : list Z)
  (tl : list Ingest.CopyResult) :
  0 <= batchSize <= maxLen ->
  forall rows : Z,
    Ingest.copyLoop maxLen batchSize (map Ingest.CopyOk ns ++ tl)
      (wrap64 rows) =
    Ingest.copyLoop maxLen batchSize tl (wrap64 (rows + total ns)).
Proof.
  intros Hb. induction ns as [|n ns IH]; intros rows.
  - cbn [map app total fold_right]. now rewrite Z.add_0_r.
  - cbn [map app Ingest.copyLoop].
    destruct (Z.ltb_spec batchSize 0); [lia|].
    destruct (Z.ltb_spec maxLen batchSize); [lia|]. cbn [orb].
    rewrite wrap64_add_l, IH. cbn [total fold_right].
    fold (total ns). now rewrite Z.add_assoc.
Qed.

(** When [make] accepts the batch size in use (the configured one, or the
    default for zero): it is not negative and not above the largest length
    the runtime allows, [RunCopy] on a connection and a table that are fine
    returns nil when the context is done, with all rows counted, and stops
    at the first failing [CopyFrom].  That error comes back wrapped, so a
    deadline or a cancellation that interrupts a copy is returned as a
    failure, and [errors.Is] still finds the deadline or the cancellation
    in it. *)
Theorem RunCopy_stops_at_first_error (maxLen : Z) (conf : Ingest.Config)
  (ns : list Z) :
  0 <= Ingest.BatchSize (Ingest.Normalize conf) <= maxLen ->
  Ingest.RunCopy maxLen
    {| Ingest.connectErr := None; Ingest.createErr := None;
       Ingest.copies := map Ingest.CopyOk ns |} conf
  = Returns (None, wrap64 (total ns)) /\
  forall (err : error) (rest : list Ingest.CopyResult),
    exists wrapped,
      Ingest.RunCopy maxLen
        {| Ingest.connectErr := None; Ingest.createErr := None;
           Ingest.copies :=
             map Ingest.CopyOk ns ++ Ingest.CopyErr err :: rest |}
        conf
      = Returns (Some wrapped, wrap64 (total ns)) /\
      Error_ wrapped = ("failed to copy data: " ++ Error_ err)%string /\
      errors_Is wrapped DeadlineExceeded = errors_Is err DeadlineExceeded /\
      errors_Is wrapped Canceled = errors_Is err Canceled.
Proof.
  intros Hn. unfold Ingest.RunCopy.
  cbn [Ingest.connectErr Ingest.createErr Ingest.copies].
  split.
  - pose proof (copyLoop_oks maxLen _ ns [] Hn 0) as H1.
    rewrite wrap64_0, app_nil_r, Z.add_0_l in H1. rewrite H1. reflexivity.
  - intros err rest.
    exists (wrapError ("failed to copy data: " ++ Error_ err)%string err).
    split; [|repeat split].
    pose proof (copyLoop_oks maxLen _ ns (Ingest.CopyErr err :: rest) Hn 0)
      as H2.
    rewrite wrap64_0, Z.add_0_l in H2. rewrite H2.
    cbn [Ingest.copyLoop].
    destruct (Z.ltb_spec (Ingest.BatchSize (Ingest.Normalize conf)) 0);
      [lia|].
    destruct (Z.ltb_spec maxLen (Ingest.BatchSize (Ingest.Normalize conf)));
      [lia | reflexivity].
Qed.

Lemma RunCopy_stops_at_first_error_witness :
  let maxLen := 2 ^ 48 / 24 in
  let conf := {| Ingest.TableName := "data42"; Ingest.BatchSize := 0 |} in
  let ns := [1000000; 1000000] in
  Ingest.RunCopy maxLen
    {| Ingest.connectErr := None; Ingest.createErr := None;
       Ingest.copies := map Ingest.CopyOk ns |} conf
  = Returns (None, wrap64 (total ns)) /\
  forall (err : error) (rest : list Ingest.CopyResult),
    exists wrapped,
      Ingest.RunCopy maxLen
        {| Ingest.connectErr := None; Ingest.createErr := None;
           Ingest.copies :=
             map Ingest.CopyOk ns ++ Ingest.CopyErr err :: rest |}
        conf
      = Returns (Some wrapped, wrap64 (total ns)) /\
      Error_ wrapped = ("failed to copy data: " ++ Error_ err)%string /\
      errors_Is wrapped DeadlineExceeded = errors_Is err DeadlineExceeded /\
      errors_Is wrapped Canceled = errors_Is err Canceled.
Proof.
  intros maxLen conf ns.
  apply (RunCopy_stops_at_first_error maxLen conf ns).
  split; vm_compute; intros H; discriminate H.
Defined.

(** [Normalize] leaves a negative batch size in place, and [RunCopy] then
    panics when it allocates its first batch. *)
Theorem RunCopy_negative_batch_panics (maxLen : Z) (w : Ingest.CopyWorld)
  (conf : Ingest.Config) :
  Ingest.BatchSize conf < 0 ->
  Ingest.connectErr w = None ->
  Ingest.createErr w = None ->
  Ingest.copies w <> [] ->
  Ingest.RunCopy maxLen w conf = Panics.
Proof.
  intros Hb Hc Ht Hne. unfold Ingest.RunCopy. rewrite Hc, Ht.
  assert (Hn : Ingest.BatchSize (Ingest.Normalize conf) < 0).
  { rewrite Normalize_eq. cbn [Ingest.BatchSize].
    destruct (Z.eqb_spec (Ingest.BatchSize conf) 0); [lia | exact Hb]. }
  destruct (Ingest.copies w) as [|r rest]; [congruence|].
  cbn [Ingest.copyLoop]. apply Z.ltb_lt in Hn. now rewrite Hn.
Qed.

Lemma RunCopy_negative_batch_panics_witness :
  Ingest.RunCopy (2 ^ 48 / 24)
    {| Ingest.connectErr := None; Ingest.createErr := None;
       Ingest.copies := [Ingest.CopyOk 0] |}
    {| Ingest.TableName := "data42"; Ingest.BatchSize := -1 |} = Panics.
Proof.
  apply RunCopy_negative_batch_panics;
    [reflexivity | reflexivity | reflexivity | discriminate].
Defined.

(** * The generator *)

(** ** [strings.Split] on the code fence *)

Lemma SplitFence_cases (a : ascii) (tl : string) :
  (exists rest, tl = String "`" (String "`" rest) /\ a = "`"%char /\
                Gen.SplitFence (String a tl)
                = EmptyString :: Gen.SplitFence rest) \/
  Gen.SplitFence (String a tl) = Gen.consHead a (Gen.SplitFence tl).
Proof.
  cbn [Gen.SplitFence].
  destruct tl as [|b [|c rest]]; try (right; reflexivity).
  unfold Gen.isTick.
  destruct (Ascii.eqb_spec a "`"); [|right; reflexivity].
  destruct (Ascii.eqb_spec b "`"); [|right; reflexivity].
  destruct (Ascii.eqb_spec c "`"); [|right; reflexivity].
  subst. left. exists rest. auto.
Qed.

Lemma SplitFence_not_tick (a : ascii) (tl : string) :
  Gen.isTick a = false ->
  Gen.SplitFence (String a tl) = Gen.consHead a (Gen.SplitFence tl).
Proof.
  intros H. cbn [Gen.SplitFence].
  destruct tl as [|b [|c rest]]; try reflexivity.
  now rewrite H.
Qed.

Lemma SplitFence_nonempty (s : string) : Gen.SplitFence s <> [].
Proof.
  destruct s as [|a tl]; [discriminate|].
  destruct (SplitFence_cases a tl) as [(rest & _ & _ & ->) | ->];
    [discriminate|].
  unfold Gen.consHead. destruct (Gen.SplitFence tl); discriminate.
Qed.

Lemma consHead_length (a : ascii) (parts : list string) :
  parts <> [] -> List.length (Gen.consHead a parts) = List.length parts.
Proof. destruct parts; [congruence | reflexivity]. Qed.

Lemma SplitFence_tickFree (s : string) :
  tickFree s = true -> Gen.SplitFence s = [s].
Proof.
  induction s as [|a tl IH]; intros H; [reflexivity|].
  cbn [tickFree] in H. apply andb_prop in H. destruct H as [Ha Htl].
  apply negb_true_iff in Ha.
  rewrite (SplitFence_not_tick a tl Ha), (IH Htl). reflexivity.
Qed.

(** A text without backticks followed by a fence is the first part. *)
Lemma SplitFence_fence (a r : string) :
  tickFree a = true ->
  Gen.SplitFence (a ++ "```" ++ r) = a :: Gen.SplitFence r.
Proof.
  induction a as [|c a IH]; intros H.
  - reflexivity.
  - cbn [tickFree] in H. apply andb_prop in H. destruct H as [Hc Ha].
    apply negb_true_iff in Hc.
    change ((String c a ++ "```" ++ r)%string)
      with (String c (a ++ "```" ++ r)%string).
    rewrite (SplitFence_not_tick c _ Hc), (IH Ha). reflexivity.
Qed.

Lemma SplitFence_two_parts (pre post : string) :
  (2 <= List.length (Gen.SplitFence (pre ++ "```" ++ post)))%nat.
Proof.
  induction pre as [|a pre IH].
  - change (("" ++ "```" ++ post)%string)
      with (String "`" (String "`" (String "`" post))).
    cbn [Gen.SplitFence Gen.isTick Ascii.eqb Bool.eqb andb List.length].
    pose proof (SplitFence_nonempty post).
    destruct (Gen.SplitFence post); [congruence | cbn [List.length]; lia].
  - change ((String a pre ++ "```" ++ post)%string)
      with (String a (pre ++ "```" ++ post)%string).
    destruct (SplitFence_cases a (pre ++ "```" ++ post)%string)
      as [(rest & _ & _ & ->) | ->].
    + pose proof (SplitFence_nonempty rest).
      destruct (Gen.SplitFence rest); [congruence | cbn [List.length]; lia].
    + rewrite consHead_length by apply SplitFence_nonempty. exact IH.
Qed.

Lemma SplitFence_has_fence (s : string) :
  (2 <= List.length (Gen.SplitFence s))%nat -> Contains s "```".
Proof.
  induction s as [|a tl IH]; intros H.
  - cbn in H. lia.
  - destruct (SplitFence_cases a tl) as [(rest & -> & -> & _) | Heq].
    + exists EmptyString, rest. reflexivity.
    + rewrite Heq, consHead_length in H by apply SplitFence_nonempty.
      destruct (IH H) as (pre & post & ->).
      exists (String a pre), post. reflexivity.
Qed.

(** ** [splitQueries] *)

Lemma collect_fold (TrimSpace : string -> string) (parts : list string) :
  forall acc : list Query,
    fold_left
      (fun result part =>
         if String.prefix Gen.sqlTag part
         then result ++ [ {| SQL := TrimSpace (Gen.skip 4 part) |} ]
         else result)
      parts acc
    = acc ++ Gen.collect TrimSpace parts.
Proof.
  unfold Gen.collect.
  induction parts as [|p parts IH]; intros acc.
  - cbn [fold_left]. now rewrite app_nil_r.
  - cbn [fold_left]. destruct (String.prefix Gen.sqlTag p).
    + rewrite (IH (acc ++ [_])), (IH ([] ++ [_])). cbn [app].
      now rewrite <- app_assoc.
    + apply IH.
Qed.

Lemma collect_cons (TrimSpace : string -> string) (p : string)
  (parts : list string) :
  Gen.collect TrimSpace (p :: parts) =
  (if String.prefix Gen.sqlTag p
   then [ {| SQL := TrimSpace (Gen.skip 4 p) |} ] else [])
  ++ Gen.collect TrimSpace parts.
Proof.
  unfold Gen.collect at 1. cbn [fold_left]. rewrite collect_fold.
  destruct (String.prefix Gen.sqlTag p); reflexivity.
Qed.

(** [splitQueries] fails exactly when the answer contains no code fence at
    all; its error is "invalid markdown format".  An answer with fences but
    no block tagged [sql] is not an error: it gives no query. *)
Theorem splitQueries_fails_iff_no_fence (TrimSpace : string -> string)
  (markdown : string) :
  (Gen.splitQueries TrimSpace markdown
   = inr (errorString "invalid markdown format") <->
   ~ Contains markdown "```") /\
  (Contains markdown "```" ->
   exists queries, Gen.splitQueries TrimSpace markdown = inl queries).
Proof.
  unfold Gen.splitQueries. cbv zeta.
  destruct (Nat.ltb_spec (List.length (Gen.SplitFence markdown)) 2)
    as [Hlt | Hge].
  - split.
    + split; [|reflexivity]. intros _ (pre & post & ->).
      pose proof (SplitFence_two_parts pre post). lia.
    + intros (pre & post & ->).
      pose proof (SplitFence_two_parts pre post). lia.
  - split.
    + split; [discriminate|]. intros Hno. contradiction Hno.
      now apply SplitFence_has_fence.
    + intros _. eexists. reflexivity.
Qed.

Lemma tickFree_sqlTag (body : string) :
  tickFree body = true -> tickFree (Gen.sqlTag ++ body) = true.
Proof. intros H. cbn. exact H. Qed.

Lemma SplitFence_render (blocks : list (string * string)) (post : string) :
  Forall (fun b => tickFree (fst b) = true /\ tickFree (snd b) = true)
         blocks ->
  tickFree post = true ->
  Gen.SplitFence (renderBlocks blocks post) =
  flat_map (fun b => [fst b; (Gen.sqlTag ++ snd b)%string]) blocks ++ [post].
Proof.
  intros H Hpost. induction H as [|[pre body] blocks [Hpre Hbody] _ IH].
  - cbn [renderBlocks flat_map app]. now apply SplitFence_tickFree.
  - cbn [fst snd] in Hpre, Hbody. cbn [renderBlocks flat_map fst snd].
    change ((pre ++ "```sql" ++ LF ++ body ++ "```"
             ++ renderBlocks blocks post)%string)
      with ((pre ++ "```" ++ (Gen.sqlTag ++ body) ++ "```"
             ++ renderBlocks blocks post)%string).
    rewrite (SplitFence_fence pre _ Hpre).
    rewrite (SplitFence_fence _ _ (tickFree_sqlTag body Hbody)).
    rewrite IH. reflexivity.
Qed.

Lemma sqlTag_recognised (body : string) :
  String.prefix Gen.sqlTag (Gen.sqlTag ++ body) = true /\
  Gen.skip 4 (Gen.sqlTag ++ body) = body.
Proof. split; [destruct body; reflexivity | reflexivity]. Qed.

Lemma collect_render (TrimSpace : string -> string)
  (blocks : list (string * string)) (post : string) :
  Forall (fun b => String.prefix Gen.sqlTag (fst b) = false) blocks ->
  String.prefix Gen.sqlTag post = false ->
  Gen.collect TrimSpace
    (flat_map (fun b => [fst b; (Gen.sqlTag ++ snd b)%string]) blocks
     ++ [post])
  = map (fun b => {| SQL := TrimSpace (snd b) |}) blocks.
Proof.
  intros H Hpost. induction H as [|[pre body] blocks Hpre _ IH].
  - cbn [flat_map app map]. rewrite collect_cons, Hpost. reflexivity.
  - cbn [fst snd] in Hpre. cbn [flat_map app map fst snd].
    rewrite collect_cons, Hpre, collect_cons, IH.
    destruct (sqlTag_recognised body) as [-> ->]. reflexivity.
Qed.

(** Reading back a well-formed answer.  When the answer is a sequence of
    code blocks tagged [sql], each after some text, where the texts and the
    blocks contain no backtick and no text starts with "sql" and a line
    feed, [splitQueries] returns the blocks' contents, trimmed, in their
    order. *)
Theorem splitQueries_reads_sql_blocks (TrimSpace : string -> string)
  (blocks : list (string * string)) (post : string) :
  blocks <> [] ->
  Forall (fun b => plainText (fst b) /\ tickFree (snd b) = true) blocks ->
  plainText post ->
  Gen.splitQueries TrimSpace (renderBlocks blocks post) =
  inl (map (fun b => {| SQL := TrimSpace (snd b) |}) blocks).
Proof.
  intros Hne H [Hpost1 Hpost2]. unfold Gen.splitQueries. cbv zeta.
  rewrite SplitFence_render.
  - rewrite collect_render.
    + destruct blocks as [|b blocks]; [congruence|]. reflexivity.
    + eapply Forall_impl; [|exact H]. intros b [[_ Hb] _]. exact Hb.
    + exact Hpost2.
  - eapply Forall_impl; [|exact H]. intros b [[Hb _] Hb']. auto.
  - exact Hpost1.
Qed.

Lemma splitQueries_reads_sql_blocks_witness :
  let blocks := [("Here are the queries:" ++ LF,
                  LF ++ "SELECT 1;" ++ LF);
                 (LF ++ "and" ++ LF, "UPDATE t SET a = 1;")]%string in
  Gen.splitQueries (fun s => s) (renderBlocks blocks LF) =
  inl (map (fun b => {| SQL := snd b |}) blocks).
Proof.
  intros blocks.
  apply (splitQueries_reads_sql_blocks (fun s => s) blocks LF).
  - discriminate.
  - repeat constructor.
  - split; reflexivity.
Defined.

(** ** [SavePrevResult] and [DoIteration] *)

Lemma Contains_append_own (a b : string) : Contains (a ++ b) b.
Proof. apply Contains_app_r, Contains_refl. Qed.

Lemma classify_grows (fmtFloat32 : Z -> string) (err : option error)
  (acc : string * string) (r : Query * ExecStats) (m : string) :
  (Contains (fst acc) m ->
   Contains (fst (Gen.classify fmtFloat32 err acc r)) m) /\
  (Contains (snd acc) m ->
   Contains (snd (Gen.classify fmtFloat32 err acc r)) m).
Proof.
  destruct acc as [f s], r as [q stats]. unfold Gen.classify.
  destruct err; [|destruct (Count stats =? 0);
                   [|destruct (negb (Avg stats =? 0))]];
    cbn [fst snd]; split; auto using Contains_app_l.
Qed.

Lemma fold_classify_grows (fmtFloat32 : Z -> string) (err : option error)
  (rs : list (Query * ExecStats)) :
  forall (acc : string * string) (m : string),
    (Contains (fst acc) m ->
     Contains (fst (fold_left (Gen.classify fmtFloat32 err) rs acc)) m) /\
    (Contains (snd acc) m ->
     Contains (snd (fold_left (Gen.classify fmtFloat32 err) rs acc)) m).
Proof.
  induction rs as [|r rs IH]; intros acc m; [split; auto|].
  cbn [fold_left].
  destruct (classify_grows fmtFloat32 err acc r m) as [H1 H2].
  destruct (IH (Gen.classify fmtFloat32 err acc r) m) as [H3 H4].
  split; auto.
Qed.

Lemma fold_classify_records (fmtFloat32 : Z -> string)
  (rs : list (Query * ExecStats)) (q : Query) (stats : ExecStats) :
  In (q, stats) rs ->
  forall acc : string * string,
    let out := fold_left (Gen.classify fmtFloat32 None) rs acc in
    (Count stats = 0 -> Contains (fst out) (Gen.msgTimeout q)) /\
    (Count stats <> 0 -> Avg stats <> 0 ->
     Contains (snd out)
       (Gen.msgGood (fmtFloat32 (Z.quot Second (Avg stats))) q)).
Proof.
  induction rs as [|r rs IH]; intros Hin acc; [destruct Hin|].
  cbn [fold_left]. destruct Hin as [-> | Hin]; [|now apply IH].
  cbv zeta. split.
  - intros Hc. apply fold_classify_grows.
    destruct acc as [f s]. unfold Gen.classify.
    apply Z.eqb_eq in Hc. rewrite Hc. cbn [fst].
    apply Contains_append_own.
  - intros Hc Ha. apply fold_classify_grows.
    destruct acc as [f s]. unfold Gen.classify.
    apply Z.eqb_neq in Hc, Ha. rewrite Hc, Ha. cbn [negb snd].
    apply Contains_append_own.
Qed.

Lemma DoIteration_connected (fmtFloat32 : Z -> string) (prevPrompt : string)
  (w : Gen.IterWorld) (qs : list Query) :
  Gen.dbConnect w = None ->
  Gen.generated w = inl qs ->
  let out :=
    fold_left (Gen.classify fmtFloat32 None)
      (map (fun q => (q, fst (Run (Gen.launch w q) q))) (Gen.finished w qs))
      (EmptyString, EmptyString) in
  Gen.DoIteration fmtFloat32 prevPrompt w =
  {| Gen.returned := None;
     Gen.prevPrompt' := Gen.SavePrevResult prevPrompt (fst out) (snd out);
     Gen.failedQueries := fst out;
     Gen.successQueries := snd out |}.
Proof.
  intros Hc Hg out. unfold Gen.DoIteration. rewrite Hc, Hg.
  fold out. destruct out as [f s]. reflexivity.
Qed.

(** [DoIteration] returns an error only when it cannot connect; the error
    is a fresh one whose message starts with "failed to connect to
    database: ", and the prompt is left as it was.  When [Generate] fails,
    [DoIteration] runs no query, returns nil and leaves the prompt as it
    was. *)
Theorem DoIteration_errors (fmtFloat32 : Z -> string) (prevPrompt : string)
  (w : Gen.IterWorld) :
  (forall e, Gen.dbConnect w = Some e ->
     Gen.returned (Gen.DoIteration fmtFloat32 prevPrompt w)
     = Some (errorString
               ("failed to connect to database: " ++ Error_ e)%string) /\
     Gen.prevPrompt' (Gen.DoIteration fmtFloat32 prevPrompt w) = prevPrompt) /\
  (Gen.dbConnect w = None ->
   Gen.returned (Gen.DoIteration fmtFloat32 prevPrompt w) = None) /\
  (forall e, Gen.dbConnect w = None -> Gen.generated w = inr e ->
     Gen.finished w [] = [] ->
     Gen.DoIteration fmtFloat32 prevPrompt w =
     {| Gen.returned := None; Gen.prevPrompt' := prevPrompt;
        Gen.failedQueries := ""; Gen.successQueries := "" |}).
Proof.
  split; [|split].
  - intros e He. unfold Gen.DoIteration. rewrite He. split; reflexivity.
  - intros Hc. unfold Gen.DoIteration. rewrite Hc.
    destruct (Gen.generated w) as [qs | e];
      match goal with |- context [fold_left ?f ?l ?a] =>
        destruct (fold_left f l a) end; reflexivity.
  - intros e Hc Hg Hfin. unfold Gen.DoIteration.
    rewrite Hc, Hg, Hfin. reflexivity.
Qed.

(** After an iteration that could connect, the prompt for the next one
    lists the good queries first and the failed ones after them; when
    neither list has an entry, the prompt of the iteration before is kept
    unchanged. *)
Theorem DoIteration_next_prompt (fmtFloat32 : Z -> string)
  (prevPrompt : string) (w : Gen.IterWorld) :
  Gen.dbConnect w = None ->
  let r := Gen.DoIteration fmtFloat32 prevPrompt w in
  Gen.prevPrompt' r =
  if ((Gen.failedQueries r =? "") && (Gen.successQueries r =? ""))%string
  then prevPrompt
  else (Gen.prevHeader ++ Gen.successQueries r ++ Gen.failedQueries r
        ++ LF)%string.
Proof.
  intros Hc r. unfold r, Gen.DoIteration. rewrite Hc.
  destruct (Gen.generated w) as [qs | e];
    match goal with |- context [fold_left ?f ?l ?a] =>
      destruct (fold_left f l a) as [failed success] end;
    cbn [Gen.prevPrompt' Gen.failedQueries Gen.successQueries];
    unfold Gen.SavePrevResult;
    destruct (failed =? "")%string, (success =? "")%string; reflexivity.
Qed.

Lemma DoIteration_next_prompt_witness :
  let w := {| Gen.dbConnect := None;
              Gen.generated := inl [ {| SQL := "select 1" |} ];
              Gen.finished := fun qs => qs;
              Gen.launch := fun _ => steadyEnv 5 (90 * Millisecond) |} in
  let r := Gen.DoIteration (fun _ => "4444"%string) "" w in
  Gen.prevPrompt' r =
  if ((Gen.failedQueries r =? "") && (Gen.successQueries r =? ""))%string
  then ""%string
  else (Gen.prevHeader ++ Gen.successQueries r ++ Gen.failedQueries r
        ++ LF)%string.
Proof.
  intros w.
  apply (DoIteration_next_prompt (fun _ => "4444"%string) ""%string w).
  reflexivity.
Defined.

(** [DoIteration] sorts a finished query by the [Count] and [Avg] that
    [Run] returned and never looks at its [Error].  A query whose result has
    a zero [Count] is listed among the failed ones as "never finished, most
    likely timed out"; a query with a non-zero [Count] and [Avg] is listed
    among the good ones, with the rate [time.Second / Avg]. *)
Theorem DoIteration_sorts_by_Count_and_Avg (fmtFloat32 : Z -> string)
  (prevPrompt : string) (w : Gen.IterWorld) (qs : list Query) (q : Query) :
  Gen.dbConnect w = None ->
  Gen.generated w = inl qs ->
  Permutation (Gen.finished w qs) qs ->
  In q qs ->
  let r := Gen.DoIteration fmtFloat32 prevPrompt w in
  let stats := fst (Run (Gen.launch w q) q) in
  (Count stats = 0 ->
   Contains (Gen.failedQueries r) (Gen.msgTimeout q)) /\
  (Count stats <> 0 -> Avg stats <> 0 ->
   Contains (Gen.successQueries r)
     (Gen.msgGood (fmtFloat32 (Z.quot Second (Avg stats))) q)).
Proof.
  intros Hc Hg HP Hin r stats. unfold r.
  rewrite (DoIteration_connected fmtFloat32 prevPrompt w qs Hc Hg).
  cbn [Gen.failedQueries Gen.successQueries].
  apply (fold_classify_records fmtFloat32 _ q stats).
  apply (in_map (fun q => (q, fst (Run (Gen.launch w q) q)))).
  eapply Permutation_in; [apply Permutation_sym; exact HP | exact Hin].
Qed.

Lemma DoIteration_sorts_by_Count_and_Avg_witness :
  let q := {| SQL := "select 1" |} in
  let w := {| Gen.dbConnect := None;
              Gen.generated := inl [q];
              Gen.finished := fun qs => qs;
              Gen.launch := fun _ => steadyEnv 5 (90 * Millisecond) |} in
  let r := Gen.DoIteration (fun _ => "4444"%string) "" w in
  let stats := fst (Run (Gen.launch w q) q) in
  (Count stats = 0 ->
   Contains (Gen.failedQueries r) (Gen.msgTimeout q)) /\
  (Count stats <> 0 -> Avg stats <> 0 ->
   Contains (Gen.successQueries r)
     (Gen.msgGood ((fun _ => "4444"%string) (Z.quot Second (Avg stats))) q)).
Proof.
  intros q w.
  apply (DoIteration_sorts_by_Count_and_Avg (fun _ => "4444"%string)
           ""%string w [q] q).
  - reflexivity.
  - reflexivity.
  - apply Permutation_refl.
  - now left.
Defined.

(** A query whose first measurement cannot even connect comes back from
    [Run] with the connection error, and [DoIteration] lists it as "never
    finished, most likely timed out". *)
Theorem DoIteration_reports_failure_as_timeout (fmtFloat32 : Z -> string)
  (prevPrompt : string) (w : Gen.IterWorld) (qs : list Query) (q : Query)
  (e : error) :
  Gen.dbConnect w = None ->
  Gen.generated w = inl qs ->
  Permutation (Gen.finished w qs) qs ->
  In q qs ->
  connect (baseline (Gen.launch w q)) = Some e ->
  Error (fst (Run (Gen.launch w q) q)) = Some e /\
  Contains (Gen.failedQueries (Gen.DoIteration fmtFloat32 prevPrompt w))
           (Gen.msgTimeout q).
Proof.
  intros Hc Hg HP Hin He.
  assert (Hrun : fst (Run (Gen.launch w q) q) =
    {| Min := 0; Avg := 0; Max := 0; Count := 0; Error := Some e |}).
  { rewrite Run_failed; unfold executeAndMeasure; rewrite He; reflexivity. }
  split; [now rewrite Hrun|].
  rewrite (DoIteration_connected fmtFloat32 prevPrompt w qs Hc Hg).
  cbn [Gen.failedQueries].
  apply (fold_classify_records fmtFloat32 _ q
           (fst (Run (Gen.launch w q) q))).
  - apply (in_map (fun q => (q, fst (Run (Gen.launch w q) q)))).
    eapply Permutation_in; [apply Permutation_sym; exact HP | exact Hin].
  - now rewrite Hrun.
Qed.

Lemma DoIteration_reports_failure_as_timeout_witness :
  let q := {| SQL := "select 1" |} in
  let e := errorString "connection refused" in
  let w := {| Gen.dbConnect := None;
              Gen.generated := inl [q];
              Gen.finished := fun qs => qs;
              Gen.launch := fun _ =>
                {| baseline := {| connect := Some e; execs := [] |};
                   worker := fun _ _ => steady 5 (90 * Millisecond) |} |} in
  Error (fst (Run (Gen.launch w q) q)) = Some e /\
  Contains (Gen.failedQueries (Gen.DoIteration (fun _ => "1"%string) "" w))
           (Gen.msgTimeout q).
Proof.
  intros q e w.
  apply (DoIteration_reports_failure_as_timeout (fun _ => "1"%string)
           ""%string w [q] q e).
  - reflexivity.
  - reflexivity.
  - apply Permutation_refl.
  - now left.
  - reflexivity.
Defined.
